(** * tectonic-on-arXiv: the corpus evaluation scripts

    A shallow embedding of [report_ci.py] (the worker pipeline),
    [report.py] (the sequential two-engine report) and
    [prepare_dataset.py] (the preparation pass that builds the
    entry-document map), with the properties of the evaluation pipeline
    stated and proved over it.

    Layout: byte strings and POSIX paths; SHA-256; the world the scripts
    act on (file system, trace of library calls, clock) and the monad of
    the scripts; then one module per source file; then the theorems. *)

From Stdlib Require Import ZArith String Ascii List Bool Lia Sorted.
From stdpp Require Import base option list gmap gmultiset sets strings pretty.

Import ListNotations.
Local Open Scope Z_scope.

(** ** Byte strings

    Python [str] and [bytes] values are both [string] here: a list of
    8-bit characters. *)

Module Str.

(** [needle in hay] of Python, for [str] and for [bytes]. *)
Fixpoint contains (needle hay : string) : bool :=
  String.prefix needle hay ||
  match hay with
  | EmptyString => false
  | String _ hay' => contains needle hay'
  end.

(** [s.split(sep)] for a one-character separator. *)
Fixpoint split (sep : ascii) (s : string) : list string :=
  match s with
  | EmptyString => [EmptyString]
  | String c s' =>
      if Ascii.eqb c sep then EmptyString :: split sep s'
      else match split sep s' with
           | [] => [String c EmptyString]
           | h :: t => String c h :: t
           end
  end.

Definition startswith (p s : string) : bool := String.prefix p s.

Fixpoint endswith_char (c : ascii) (s : string) : bool :=
  match s with
  | EmptyString => false
  | String d EmptyString => Ascii.eqb c d
  | String _ s' => endswith_char c s'
  end.

(** [s.rfind(c)]: the index of the last occurrence of [c]. *)
Fixpoint rfind (c : ascii) (s : string) : option nat :=
  match s with
  | EmptyString => None
  | String d s' =>
      match rfind c s' with
      | Some i => Some (S i)
      | None => if Ascii.eqb c d then Some O else None
      end
  end.

(** [s[:n]] and [s[n:]]. *)
Fixpoint take (n : nat) (s : string) : string :=
  match n, s with
  | S n', String c s' => String c (take n' s')
  | _, _ => EmptyString
  end.

Fixpoint drop (n : nat) (s : string) : string :=
  match n, s with
  | S n', String _ s' => drop n' s'
  | _, _ => s
  end.

(** The longest common prefix of two strings, character by character. *)
Fixpoint common_prefix (a b : string) : string :=
  match a, b with
  | String x a', String y b' =>
      if Ascii.eqb x y then String x (common_prefix a' b') else EmptyString
  | _, _ => EmptyString
  end.

Fixpoint all_char (c : ascii) (s : string) : bool :=
  match s with
  | EmptyString => true
  | String d s' => Ascii.eqb c d && all_char c s'
  end.

(** [s.rstrip(c)]. *)
Fixpoint rstrip (c : ascii) (s : string) : string :=
  match s with
  | EmptyString => EmptyString
  | String d s' =>
      if Ascii.eqb c d && all_char c s' then EmptyString
      else String d (rstrip c s')
  end.

Definition is_space (c : ascii) : bool :=
  let n := nat_of_ascii c in
  Nat.eqb n 32 || (Nat.leb 9 n && Nat.leb n 13).

Fixpoint lstrip (s : string) : string :=
  match s with
  | String c s' => if is_space c then lstrip s' else s
  | EmptyString => EmptyString
  end.

Fixpoint all_space (s : string) : bool :=
  match s with
  | EmptyString => true
  | String c s' => is_space c && all_space s'
  end.

Fixpoint rstrip_space (s : string) : string :=
  match s with
  | EmptyString => EmptyString
  | String c s' => if all_space s then EmptyString else String c (rstrip_space s')
  end.

(** [s.strip()]. *)
Definition strip (s : string) : string := rstrip_space (lstrip s).

(** Insertion sort by code point order: [sorted(l)] on strings. *)
Fixpoint insert_sorted (x : string) (l : list string) : list string :=
  match l with
  | [] => [x]
  | y :: l' => if String.leb x y then x :: l else y :: insert_sorted x l'
  end.

Definition sorted (l : list string) : list string :=
  foldr insert_sorted [] l.

End Str.

(** ** POSIX paths: [os.path] and the parts of [pathlib] the scripts use *)

Module PosixPath.

Definition sep : ascii := "/"%char.

(** [os.path.join(a, b)]. *)
Definition join (a b : string) : string :=
  if Str.startswith "/" b then b
  else if String.eqb a "" || Str.endswith_char sep a then a +:+ b
  else a +:+ "/" +:+ b.

(** The loop of [os.path.normpath] over the components of the path;
    [acc] is [new_comps] reversed. *)
Fixpoint norm_comps (rooted : bool) (comps acc : list string) : list string :=
  match comps with
  | [] => rev acc
  | comp :: rest =>
      if String.eqb comp "" || String.eqb comp "." then
        norm_comps rooted rest acc
      else if negb (String.eqb comp "..") then
        norm_comps rooted rest (comp :: acc)
      else
        match acc with
        | [] => if rooted then norm_comps rooted rest acc
                else norm_comps rooted rest (comp :: acc)
        | top :: acc' =>
            if String.eqb top ".." then norm_comps rooted rest (comp :: acc)
            else norm_comps rooted rest acc'
        end
  end.

(** The number of leading slashes [normpath] keeps: one, or two when
    the path starts with exactly two. *)
Definition initial_slashes (path : string) : nat :=
  if negb (Str.startswith "/" path) then 0%nat
  else if Str.startswith "//" path && negb (Str.startswith "///" path)
       then 2%nat else 1%nat.

Definition normpath (path : string) : string :=
  if String.eqb path "" then "."
  else
    let n := initial_slashes path in
    let comps := norm_comps (negb (Nat.eqb n 0)) (Str.split sep path) [] in
    let body := String.concat "/" comps in
    let res := Str.take n "//" +:+ body in
    if String.eqb res "" then "." else res.

Definition isabs (path : string) : bool := Str.startswith "/" path.

(** [os.path.abspath(path)] in the working directory [cwd]. *)
Definition abspath (cwd path : string) : string :=
  if isabs path then normpath path else normpath (join cwd path).

(** [os.path.commonprefix([a, b])]: the common prefix of the smaller
    and the larger of the two strings, which is their longest common
    prefix as strings of characters. *)
Definition commonprefix (a b : string) : string := Str.common_prefix a b.

(** [os.path.dirname]: up to the last slash, trailing slashes
    stripped unless the head is slashes only. *)
Definition dirname (path : string) : string :=
  match Str.rfind sep path with
  | None => ""
  | Some i =>
      let head := Str.take (S i) path in
      if Str.all_char sep head then head else Str.rstrip sep head
  end.

(** [PurePath.name]: the last component. *)
Definition name (path : string) : string :=
  match Str.rfind sep path with
  | None => path
  | Some i => Str.drop (S i) path
  end.

(** [PurePath.suffix]: from the last dot of the name, unless that dot
    is the first or the last character. *)
Definition suffix (path : string) : string :=
  let n := name path in
  match Str.rfind "."%char n with
  | Some (S i) =>
      if Nat.ltb (S i) (String.length n - 1) then Str.drop (S i) n else ""
  | _ => ""
  end.

(** [PurePath.stem]: the name without its suffix. *)
Definition stem (path : string) : string :=
  let n := name path in
  match Str.rfind "."%char n with
  | Some (S i) =>
      if Nat.ltb (S i) (String.length n - 1) then Str.take (S i) n else n
  | _ => n
  end.

(** [p / child] of [pathlib] for a child without a leading slash. *)
Definition div (p child : string) : string := join p child.

(** The components of a normalised path, for containment by
    directory rather than by character. *)
Definition components (path : string) : list string :=
  filter (fun c => negb (String.eqb c "")) (Str.split sep path).

Fixpoint is_prefix_of (l1 l2 : list string) : bool :=
  match l1, l2 with
  | [], _ => true
  | x :: l1', y :: l2' => String.eqb x y && is_prefix_of l1' l2'
  | _, [] => false
  end.

(** [target] names [directory] itself or something below it. *)
Definition inside (directory target : string) : bool :=
  is_prefix_of (components directory) (components target).

End PosixPath.

(** ** SHA-256 (FIPS 180-4), as [hashlib.sha256] computes it

    Words are integers below [2^32]; additions wrap around. *)

Module SHA256.

Definition w32 (x : Z) : Z := x mod 2 ^ 32.

Definition rotr (n x : Z) : Z :=
  Z.lor (Z.shiftr x n) (w32 (Z.shiftl x (32 - n))).

Definition shr (n x : Z) : Z := Z.shiftr x n.

Definition Ch (x y z : Z) : Z :=
  Z.lxor (Z.land x y) (Z.land (Z.lxor x (2 ^ 32 - 1)) z).

Definition Maj (x y z : Z) : Z :=
  Z.lxor (Z.lxor (Z.land x y) (Z.land x z)) (Z.land y z).

Definition Sigma0 (x : Z) : Z := Z.lxor (Z.lxor (rotr 2 x) (rotr 13 x)) (rotr 22 x).
Definition Sigma1 (x : Z) : Z := Z.lxor (Z.lxor (rotr 6 x) (rotr 11 x)) (rotr 25 x).
Definition sigma0 (x : Z) : Z := Z.lxor (Z.lxor (rotr 7 x) (rotr 18 x)) (shr 3 x).
Definition sigma1 (x : Z) : Z := Z.lxor (Z.lxor (rotr 17 x) (rotr 19 x)) (shr 10 x).

(** The first 64 primes. *)
Definition is_prime (n : Z) : bool :=
  (1 <? n) && forallb (fun d => negb (n mod Z.of_nat d =? 0)) (seq 2 (Z.to_nat n - 2)).

Definition primes : list Z :=
  Eval vm_compute in
    firstn 64 (List.filter is_prime (map Z.of_nat (seq 2 400))).

(** The integer cube root below [2^35], bit by bit from the top. *)
Definition cube_root (n : Z) : Z :=
  fold_left (fun acc i =>
               let c := acc + 2 ^ Z.of_nat i in
               if c * c * c <=? n then c else acc)
            (rev (seq 0 35)) 0.

(** The round constants: the first 32 bits of the fractional parts of
    the cube roots of the primes. *)
Definition K : list Z :=
  Eval vm_compute in map (fun q => w32 (cube_root (q * 2 ^ 96))) primes.

(** The initial hash value: the same of the square roots of the first
    eight primes. *)
Definition H0 : list Z :=
  Eval vm_compute in map (fun q => w32 (Z.sqrt (q * 2 ^ 64))) (firstn 8 primes).

Definition byte_of (c : ascii) : Z := Z.of_N (N_of_ascii c).

Definition bytes_of (s : string) : list Z := map byte_of (list_ascii_of_string s).

(** Big-endian bytes of [x], [n] of them. *)
Fixpoint be_bytes (n : nat) (x : Z) : list Z :=
  match n with
  | O => []
  | S n' => be_bytes n' (x / 256) ++ [x mod 256]
  end.

(** The message, the bit [1], zero bits up to 56 modulo 64 bytes, and
    the length in bits as a 64-bit integer. *)
Definition pad (msg : list Z) : list Z :=
  let len := Z.of_nat (length msg) in
  let zeros := Z.to_nat ((55 - len) mod 64) in
  msg ++ [0x80] ++ repeat 0 zeros ++ be_bytes 8 (8 * len).

Fixpoint words_of (fuel : nat) (bs : list Z) : list Z :=
  match fuel, bs with
  | S fuel', b0 :: b1 :: b2 :: b3 :: rest =>
      (((b0 * 256 + b1) * 256 + b2) * 256 + b3) :: words_of fuel' rest
  | _, _ => []
  end.

(** The message schedule, newest word first. *)
Definition schedule_step (ws : list Z) : list Z :=
  w32 (sigma1 (nth 1 ws 0) + nth 6 ws 0 + sigma0 (nth 14 ws 0) + nth 15 ws 0) :: ws.

Definition schedule (block : list Z) : list Z :=
  rev (Nat.iter 48 schedule_step (rev block)).

Record regs := Regs { ra : Z; rb : Z; rc : Z; rd : Z; re : Z; rf : Z; rg : Z; rh : Z }.

Definition round (r : regs) (kw : Z * Z) : regs :=
  let t1 := rh r + Sigma1 (re r) + Ch (re r) (rf r) (rg r) + fst kw + snd kw in
  let t2 := Sigma0 (ra r) + Maj (ra r) (rb r) (rc r) in
  Regs (w32 (t1 + t2)) (ra r) (rb r) (rc r) (w32 (rd r + t1)) (re r) (rf r) (rg r).

Definition regs_of (h : list Z) : regs :=
  Regs (nth 0 h 0) (nth 1 h 0) (nth 2 h 0) (nth 3 h 0)
       (nth 4 h 0) (nth 5 h 0) (nth 6 h 0) (nth 7 h 0).

Definition list_of (r : regs) : list Z :=
  [ra r; rb r; rc r; rd r; re r; rf r; rg r; rh r].

Definition compress (h block : list Z) : list Z :=
  let r := fold_left round (combine K (schedule block)) (regs_of h) in
  map (fun p => w32 (fst p + snd p)) (combine h (list_of r)).

Fixpoint blocks (fuel : nat) (ws : list Z) : list (list Z) :=
  match fuel, ws with
  | S fuel', _ :: _ => firstn 16 ws :: blocks fuel' (skipn 16 ws)
  | _, _ => []
  end.

Definition digest (msg : string) : list Z :=
  let bs := pad (bytes_of msg) in
  let ws := words_of (length bs) bs in
  fold_left compress (blocks (length ws) ws) H0.

Definition hex_digit (d : Z) : ascii :=
  if d <? 10 then ascii_of_N (Z.to_N (48 + d)) else ascii_of_N (Z.to_N (87 + d)).

Definition hex_byte (b : Z) : string :=
  String (hex_digit (b / 16)) (String (hex_digit (b mod 16)) EmptyString).

(** [hashlib.sha256(msg).hexdigest()]. *)
Definition hexdigest (msg : string) : string :=
  String.concat "" (map hex_byte (flat_map (be_bytes 4) (digest msg))).

End SHA256.

(** ** Exceptions and results *)

Inductive exn : Type :=
| Exception (msg : string)
| AssertionError (msg : string)
| IndexError
| KeyError (key : string)
| FileNotFoundError (path : string)
| FileExistsError (path : string)
| IsADirectoryError (path : string)
| NotADirectoryError (path : string)
| BadGzipFile (path : string)
| ReadError (path : string)
| TimeoutExpired
| CalledProcessError (code : Z).

Inductive result (A : Type) : Type :=
| Ok (a : A)
| Raise (e : exn).
Arguments Ok {A} a.
Arguments Raise {A} e.

(** ** The file system

    A file carries its bytes and the MIME type libmagic reports for
    them. The file system is an association list from absolute,
    normalised paths to nodes, in creation order: the order in which
    [iterdir] lists a directory. There are no symbolic links. *)

Record filedata : Type := FileData { f_bytes : string; f_mime : string }.

Inductive node : Type :=
| Dir
| File (d : filedata).

Module FS.

Definition t : Type := list (string * node).

Fixpoint lookup (p : string) (f : t) : option node :=
  match f with
  | [] => None
  | (q, n) :: f' => if String.eqb q p then Some n else lookup p f'
  end.

Definition mem (p : string) (f : t) : bool :=
  match lookup p f with Some _ => true | None => false end.

(** Replaces the node at [p] in place, or adds it last. *)
Fixpoint write (p : string) (n : node) (f : t) : t :=
  match f with
  | [] => [(p, n)]
  | (q, m) :: f' => if String.eqb q p then (q, n) :: f' else (q, m) :: write p n f'
  end.

Definition remove (p : string) (f : t) : t :=
  List.filter (fun e => negb (String.eqb (fst e) p)) f.

(** [q] is [d] or lies below it, by directory. *)
Definition under (d q : string) : bool :=
  String.eqb q d ||
  Str.startswith (if Str.endswith_char PosixPath.sep d then d else d +:+ "/") q.

Definition rmtree (d : string) (f : t) : t :=
  List.filter (fun e => negb (under d (fst e))) f.

(** The entries directly in [d], in creation order. *)
Definition children (d : string) (f : t) : list (string * node) :=
  List.filter (fun e => String.eqb (PosixPath.dirname (fst e)) d
                        && negb (String.eqb (fst e) d)) f.

(** The directories [makedirs] has to find or make for [p]. *)
Fixpoint prefixes_from (base : string) (comps : list string) : list string :=
  match comps with
  | [] => []
  | c :: rest => let b := PosixPath.join base c in b :: prefixes_from b rest
  end.

Definition ancestors (p : string) : list string :=
  prefixes_from "/" (PosixPath.components p).

(** [os.makedirs(p, exist_ok=True)]: [None] when a file is in the way. *)
Fixpoint mkdirs (ps : list string) (f : t) : option t :=
  match ps with
  | [] => Some f
  | p :: rest =>
      match lookup p f with
      | None => mkdirs rest (write p Dir f)
      | Some Dir => mkdirs rest f
      | Some (File _) => None
      end
  end.

Definition makedirs (p : string) (f : t) : option t :=
  if String.eqb p "/" then Some f else mkdirs (ancestors p) f.

Definition files_outside (d : string) (f : t) : list string :=
  map fst (List.filter (fun e => negb (PosixPath.inside d (fst e))) f).

End FS.

(** ** The world and the monad of the scripts

    A script is a function from the world to a result and the world it
    leaves: an exception keeps the effects that came before it. The
    trace records the library calls that the properties speak about. *)

Inductive event : Type :=
| EvMkdtemp (d : string)
| EvGunzip (src dst : string)
| EvTarOpen (p : string)
| EvExtract (target : string)
| EvUnlink (p : string)
| EvRmtree (d : string)
| EvSniff (p : string)
| EvRead (p : string)
| EvHash (p : string)
| EvCopy (src dst : string)
| EvRun (argv : list string) (wd : string) (timeout : Z).

Record world : Type := World {
  w_fs : FS.t;
  w_trace : list event;
  w_cwd : string;
  w_tmp : nat;             (* the next candidate name of mkdtemp *)
  w_clock : Z;             (* time.time(), in milliseconds *)
  w_exclude : gset string  (* report.py: the global _CAPTURE_EXCLUDE *)
}.

Definition M (A : Type) : Type := world → result A * world.

Definition ret {A} (a : A) : M A := fun w => (Ok a, w).

Definition bind {A B} (m : M A) (k : A → M B) : M B :=
  fun w => match m w with
           | (Ok a, w') => k a w'
           | (Raise e, w') => (Raise e, w')
           end.

Definition raise {A} (e : exn) : M A := fun w => (Raise e, w).

Notation "x <- m ;; k" := (bind m (fun x => k))
  (at level 100, m at next level, right associativity).
Notation "m ;;; k" := (bind m (fun _ => k))
  (at level 100, right associativity).

(** [try: m except e: h] for the one exception the scripts catch. *)
Definition try_timeout {A} (m : M A) (h : M A) : M A :=
  fun w => match m w with
           | (Raise TimeoutExpired, w') => h w'
           | r => r
           end.

(** [with mgr as x: body], where [mgr] is built by [init]: a failing
    [init] never reaches [__exit__]; after it, [__exit__] runs on every
    way out of the body, and an exception of the body is raised again
    (the [__exit__] of the scripts returns [None]). *)
Definition with_ {A B} (init : M A) (exit_ : A → M unit) (body : A → M B) : M B :=
  fun w =>
    match init w with
    | (Raise e, w1) => (Raise e, w1)
    | (Ok a, w1) =>
        match body a w1 with
        | (Ok b, w2) =>
            match exit_ a w2 with
            | (Ok _, w3) => (Ok b, w3)
            | (Raise e, w3) => (Raise e, w3)
            end
        | (Raise e, w2) =>
            match exit_ a w2 with
            | (Ok _, w3) => (Raise e, w3)
            | (Raise e', w3) => (Raise e', w3)
            end
        end
    end.

Definition get_fs : M FS.t := fun w => (Ok (w_fs w), w).

Definition set_fs (f : FS.t) : M unit :=
  fun w => (Ok tt, World f (w_trace w) (w_cwd w) (w_tmp w) (w_clock w) (w_exclude w)).

Definition log (e : event) : M unit :=
  fun w => (Ok tt, World (w_fs w) (w_trace w ++ [e]) (w_cwd w) (w_tmp w)
                         (w_clock w) (w_exclude w)).

Definition abs (p : string) : M string :=
  fun w => (Ok (PosixPath.abspath (w_cwd w) p), w).

Definition time_time : M Z := fun w => (Ok (w_clock w), w).

Definition advance (dt : Z) : M unit :=
  fun w => (Ok tt, World (w_fs w) (w_trace w) (w_cwd w) (w_tmp w)
                         (w_clock w + dt) (w_exclude w)).

(** *** Library calls on files *)

Module OS.

Definition exists_ (p : string) : M bool :=
  q <- abs p ;; f <- get_fs ;; ret (FS.mem q f).

Definition is_file (p : string) : M bool :=
  q <- abs p ;; f <- get_fs ;;
  ret (match FS.lookup q f with Some (File _) => true | _ => false end).

(** [Path.iterdir]: the children as paths [d / name]. *)
Definition iterdir (d : string) : M (list string) :=
  q <- abs d ;; f <- get_fs ;;
  match FS.lookup q f with
  | Some Dir => ret (map (fun e => PosixPath.div d (PosixPath.name (fst e)))
                         (FS.children q f))
  | Some (File _) => raise (NotADirectoryError d)
  | None => raise (FileNotFoundError d)
  end.

Definition stat (p : string) : M filedata :=
  q <- abs p ;; f <- get_fs ;;
  match FS.lookup q f with
  | Some (File d) => ret d
  | Some Dir => raise (IsADirectoryError p)
  | None => raise (FileNotFoundError p)
  end.

(** [open(p).read()], in text or in binary mode. *)
Definition read (p : string) : M string :=
  log (EvRead p) ;;; d <- stat p ;; ret (f_bytes d).

(** [magic.detect_from_filename(p).mime_type]. *)
Definition sniff (p : string) : M string :=
  log (EvSniff p) ;;;
  q <- abs p ;; f <- get_fs ;;
  match FS.lookup q f with
  | Some (File d) => ret (f_mime d)
  | Some Dir => ret "inode/directory"
  | None => raise (FileNotFoundError p)
  end.

(** [open(p, "wb")] followed by writing [d]. *)
Definition write_file (p : string) (d : filedata) : M unit :=
  q <- abs p ;; f <- get_fs ;;
  match FS.lookup q f with
  | Some Dir => raise (IsADirectoryError p)
  | _ => set_fs (FS.write q (File d) f)
  end.

Definition unlink (p : string) : M unit :=
  log (EvUnlink p) ;;;
  q <- abs p ;; f <- get_fs ;;
  match FS.lookup q f with
  | Some (File _) => set_fs (FS.remove q f)
  | Some Dir => raise (IsADirectoryError p)
  | None => raise (FileNotFoundError p)
  end.

(** [shutil.rmtree(d)]. *)
Definition rmtree (d : string) : M unit :=
  log (EvRmtree d) ;;;
  q <- abs d ;; f <- get_fs ;;
  match FS.lookup q f with
  | Some Dir => set_fs (FS.rmtree q f)
  | Some (File _) => raise (NotADirectoryError d)
  | None => raise (FileNotFoundError d)
  end.

Definition makedirs (p : string) : M unit :=
  q <- abs p ;; f <- get_fs ;;
  match FS.makedirs q f with
  | Some f' => set_fs f'
  | None => raise (FileExistsError p)
  end.

(** [shutil.copy(src, dst)] onto a path [dst] that names no directory. *)
Definition copy (src dst : string) : M unit :=
  log (EvCopy src dst) ;;; d <- stat src ;; write_file dst d.

(** [tempfile.mkdtemp(suffix)]: candidate names are tried in turn
    until one is free, at most [TMP_MAX] of them. *)
Definition tmp_name (suffix : string) (n : nat) : string :=
  "/tmp/tmp" +:+ pretty n +:+ suffix.

Fixpoint free_name (suffix : string) (fuel n : nat) (f : FS.t) : option (string * nat) :=
  match fuel with
  | O => None
  | S fuel' =>
      if FS.mem (tmp_name suffix n) f then free_name suffix fuel' (S n) f
      else Some (tmp_name suffix n, S n)
  end.

Definition TMP_MAX : nat := Z.to_nat 10000.

Definition mkdtemp (suffix : string) : M string :=
  fun w =>
    match free_name suffix TMP_MAX (w_tmp w) (w_fs w) with
    | None => (Raise (FileExistsError "/tmp"), w)
    | Some (d, n) =>
        (Ok d, World (FS.write d Dir (w_fs w)) (w_trace w ++ [EvMkdtemp d])
                     (w_cwd w) n (w_clock w) (w_exclude w))
    end.

End OS.

(** [for x in l: body x]. *)
Fixpoint for_ {A} (l : list A) (body : A → M unit) : M unit :=
  match l with
  | [] => ret tt
  | x :: l' => body x ;;; for_ l' body
  end.

(** A loop that carries the variables it assigns. *)
Fixpoint for_acc {A S} (l : list A) (body : A → S → M S) (s : S) : M S :=
  match l with
  | [] => ret s
  | x :: l' => s' <- body x s ;; for_acc l' body s'
  end.

(** ** Samples and external programs

    A sample is a file of the corpus as the scripts see it: its path,
    its size, the MIME type libmagic reports, and what [gzip] makes of
    it ([None]: not gzip data). The decompressed payload is a file, and
    for tar data the members [tarfile] reads from it. *)

Record tarmember : Type := TarMember { tm_name : string; tm_node : node }.

Record payload : Type := Payload {
  p_data : filedata;
  p_members : option (list tarmember)
}.

Record sample : Type := Sample {
  s_path : string;
  st_size : Z;
  s_mime : string;
  s_gunzip : option payload
}.

(** What running a program to its end (or to the moment it is killed)
    does: exit code, standard output, the file system it leaves, and
    the time it took in milliseconds. *)
Record proc_result : Type := ProcResult {
  pr_code : Z;
  pr_stdout : string;
  pr_fs : FS.t;
  pr_millis : Z
}.

Definition program : Type := list string → string → FS.t → proc_result.

Section Subprocess.

Variable os_run : program.

(** [subprocess.run(argv, cwd=wd, timeout=t)]: a child that is still
    running after [t] seconds is killed and [TimeoutExpired] raised. *)
Definition subprocess_run (argv : list string) (wd : string) (timeout : Z) : M Z :=
  log (EvRun argv wd timeout) ;;;
  f <- get_fs ;;
  let r := os_run argv wd f in
  set_fs (pr_fs r) ;;;
  if 1000 * timeout <? pr_millis r
  then advance (1000 * timeout) ;;; raise TimeoutExpired
  else advance (pr_millis r) ;;; ret (pr_code r).

(** [subprocess.check_output(argv, cwd=wd)]. *)
Definition check_output (argv : list string) (wd : string) : M string :=
  f <- get_fs ;;
  let r := os_run argv wd f in
  set_fs (pr_fs r) ;;;
  advance (pr_millis r) ;;;
  if pr_code r =? 0 then ret (pr_stdout r) else raise (CalledProcessError (pr_code r)).

End Subprocess.

(** [gzip.open(sample)] copied into [dst]: the target is created
    before the first byte is decompressed. *)
Definition gunzip_to (s : sample) (dst : string) : M payload :=
  log (EvGunzip (s_path s) dst) ;;;
  OS.write_file dst (FileData "" "inode/x-empty") ;;;
  match s_gunzip s with
  | None => raise (BadGzipFile (s_path s))
  | Some p => OS.write_file dst (p_data p) ;;; ret p
  end.

(** [tarfile.open(p, 'r')] on the payload written at [p]. *)
Definition tar_open (p : string) (pl : payload) : M (list tarmember) :=
  log (EvTarOpen p) ;;;
  match p_members pl with
  | None => raise (ReadError p)
  | Some ms => ret ms
  end.

(** [tar.extractall(path)] without an extraction filter: every member
    goes to [os.path.join(path, member.name)], its directories made on
    the way. *)
Definition extract_member (path : string) (m : tarmember) : M unit :=
  let target := PosixPath.join path (tm_name m) in
  log (EvExtract target) ;;;
  match tm_node m with
  | Dir => OS.makedirs target
  | File d => OS.makedirs (PosixPath.dirname target) ;;; OS.write_file target d
  end.

Definition extractall (members : list tarmember) (path : string) : M unit :=
  for_ members (extract_member path).

(** [sha256sum(filename)]. *)
Definition sha256sum (filename : string) : M string :=
  log (EvHash filename) ;;;
  d <- OS.stat filename ;;
  ret (SHA256.hexdigest (f_bytes d)).

(** ** report_ci.py *)

Module ReportCI.

(** What [capture_files] returns: the digest set in baseline mode,
    the dictionary from file name to object name otherwise. *)
Inductive captured : Type :=
| CapSet (s : gset string)
| CapMap (m : gmap string string).

(** [digest in excluded], for a set and for a dictionary. *)
Definition contains_digest (c : captured) (digest : string) : bool :=
  match c with
  | CapSet s => bool_decide (digest ∈ s)
  | CapMap m => bool_decide (digest ∈ dom m)
  end.

Definition capture_step (excluded : option captured) (as_set : bool) (f : string)
    (acc : gmap string string * gset string) : M (gmap string string * gset string) :=
  isf <- OS.is_file f ;;
  if negb isf then ret acc else
  h <- sha256sum f ;;
  let digest := Str.take 16 h in
  if as_set then ret (fst acc, {[digest]} ∪ snd acc)
  else if match excluded with
          | Some ex => contains_digest ex digest
          | None => false
          end then ret acc
  else
    let ext := if String.eqb (PosixPath.suffix f) "" then ".bin" else PosixPath.suffix f in
    let target := PosixPath.div "objects" (digest +:+ ext) in
    ex <- OS.exists_ target ;;
    (if negb ex then OS.copy f target else ret tt) ;;;
    ret (<[PosixPath.name f := digest +:+ ext]> (fst acc), snd acc).

Definition capture_files (d : string) (excluded : option captured) (as_set : bool)
    : M captured :=
  fs <- OS.iterdir d ;;
  acc <- for_acc fs (capture_step excluded as_set) (∅, ∅) ;;
  if as_set then ret (CapSet (snd acc)) else ret (CapMap (fst acc)).

Module TestEnv.

Definition is_within_directory (directory target : string) : M bool :=
  abs_directory <- abs directory ;;
  abs_target <- abs target ;;
  let prefix := PosixPath.commonprefix abs_directory abs_target in
  ret (String.eqb prefix abs_directory).

Definition safe_extract (tar : list tarmember) (path : string) : M unit :=
  for_ tar (fun member =>
    let member_path := PosixPath.join path (tm_name member) in
    ok <- is_within_directory path member_path ;;
    if negb ok then raise (Exception "Attempted Path Traversal in Tar File")
    else ret tt) ;;;
  extractall tar path.

(** [__init__]: the object is its [tmpdir]. *)
Definition init (s : sample) (is_tar : bool) : M string :=
  tmpdir <- OS.mkdtemp "ttrac" ;;
  let submission_data_path := PosixPath.div tmpdir (PosixPath.stem (s_path s)) in
  pl <- gunzip_to s submission_data_path ;;
  (if is_tar
   then tar <- tar_open submission_data_path pl ;;
        safe_extract tar tmpdir ;;;
        OS.unlink submission_data_path
   else ret tt) ;;;
  ret tmpdir.

Definition enter (tmpdir : string) : string := tmpdir.

Definition exit_ (tmpdir : string) : M unit := OS.rmtree tmpdir.

End TestEnv.

Definition BUNDLE_URL : string := "https://data1.fullyjustified.net/tlextras-2021.3r1.tar".

Definition ARGUMENTS : list string :=
  ["-w"; BUNDLE_URL; "--keep-logs"; "--keep-intermediates"].

(** One line of a report: a dictionary with these four keys. *)
Record report_record : Type := ReportRecord {
  r_sample : string;
  r_statuscode : Z;
  r_seconds : Z;
  r_results : captured
}.

Section DoWork.

Variable os_run : program.

(** The block under [with TestEnv(...) as d] in [do_work]. *)
Definition do_work_body (s : sample) (maindoc tectonic : string) (tmpdir : string)
    : M report_record :=
  let d := TestEnv.enter tmpdir in
  excluded <- capture_files d None true ;;
  start <- time_time ;;
  statuscode <-
    try_timeout
      (subprocess_run os_run
         ([tectonic] ++ ARGUMENTS ++ [PosixPath.div d maindoc]) d 600)
      (ret (-99999)) ;;
  stop <- time_time ;;
  let delta := stop - start in
  results <- capture_files d (Some excluded) false ;;
  ret (ReportRecord (PosixPath.stem (s_path s)) statuscode delta results).

(** [do_work(sample, maindoc, tectonic)]; the environment passed to
    the compiler is part of what [os_run] stands for. *)
Definition do_work (s : sample) (maindoc tectonic : string) : M report_record :=
  with_ (TestEnv.init s (negb (String.eqb maindoc (PosixPath.stem (s_path s)))))
        TestEnv.exit_
        (do_work_body s maindoc tectonic).

End DoWork.

(** *** The pipeline: [report(corpus, repo, name)]

    The main thread and the five workers run interleaved. The state
    holds what they share: the world, the report log, the queue with
    its count of unfinished tasks, and where each thread stands. A
    worker's [get], [do_work] and [task_done] are one step; its write
    and flush under [outlock] are the next. *)

Record meta : Type := Meta {
  m_name : string;
  m_branch : string;
  m_commit : string;
  m_timestamp : string;
  m_dataset : string;
  m_bundle_url : string
}.

Inductive logline : Type :=
| MetaLine (m : meta)        (* a dictionary with the key "meta" *)
| RecordLine (r : report_record).

(** The arguments of [report], with what it finds on disk: the
    samples [Path(corpus).iterdir()] lists and the dictionary in
    [corpus + ".json"]. *)
Record inputs : Type := Inputs {
  i_corpus : string;
  i_repo : string;
  i_name : string;
  i_samples : list sample;
  i_sample_maindoc : gmap string string
}.

Inductive pc : Type :=
| PcStart
| PcOpened (m : meta)
| PcMetaWritten
| PcSpawn (k : nat) (tectonic : string)
| PcEnqueue (rest : list sample)
| PcJoin
| PcSentinel (k : nat)
| PcJoinThreads
| PcDone
| PcCrashed (e : exn).

Inductive wstate : Type :=
| WGet (tectonic : string)
| WWrite (tectonic : string) (r : report_record)
| WExit
| WDead (e : exn).

Record pstate : Type := PState {
  ps_world : world;
  ps_pc : pc;
  ps_log : option (list logline);
  ps_queue : list (option sample);
  ps_unfinished : nat;
  ps_workers : list wstate
}.

Definition num_worker_threads : nat := 5.

Definition words (s : string) : list string :=
  List.filter (fun c => negb (String.eqb c "")) (Str.split " "%char s).

Section Pipeline.

Variable os_run : program.
Variable inp : inputs.

Definition initial (w : world) : pstate := PState w PcStart None [] 0 [].

Definition git (cmd : string) : M string :=
  out <- check_output os_run (words cmd) (i_repo inp) ;; ret (Str.strip out).

(** Up to [open(reportpath, "w")]. *)
Definition read_meta : M meta :=
  branch <- git "git rev-parse --abbrev-ref HEAD" ;;
  commit <- git "git rev-parse HEAD" ;;
  timestamp <- git "git show -s --format=%ci" ;;
  ret (Meta (i_name inp) branch commit timestamp
            (PosixPath.stem (i_corpus inp)) BUNDLE_URL).

(** From [cargo build] to the private copy of the binary. *)
Definition build : M string :=
  check_output os_run (words "cargo build --release") (i_repo inp) ;;;
  let tectonic := PosixPath.div (PosixPath.div (PosixPath.div (i_repo inp) "target")
                                               "release") "tectonic" in
  fun w =>
    match OS.free_name "tectonic" OS.TMP_MAX (w_tmp w) (w_fs w) with
    | None => (Raise (FileExistsError "/tmp"), w)
    | Some (tmp, n) =>
        (OS.copy tectonic tmp ;;; ret tmp)
          (World (w_fs w) (w_trace w) (w_cwd w) n (w_clock w) (w_exclude w))
    end.

Definition set_pc (st : pstate) (p : pc) : pstate :=
  PState (ps_world st) p (ps_log st) (ps_queue st) (ps_unfinished st) (ps_workers st).

Definition all_exited (ws : list wstate) : bool :=
  forallb (fun w => match w with WExit | WDead _ => true | _ => false end) ws.

(** One step of the main thread; a step that has to wait leaves the
    state as it is. *)
Definition coord_step (st : pstate) : pstate :=
  match ps_pc st with
  | PcStart =>
      match read_meta (ps_world st) with
      | (Ok m, w) => PState w (PcOpened m) (Some []) [] 0 []
      | (Raise e, w) => PState w (PcCrashed e) (ps_log st) [] 0 []
      end
  | PcOpened m =>
      PState (ps_world st) PcMetaWritten
             (Some (default [] (ps_log st) ++ [MetaLine m]))
             (ps_queue st) (ps_unfinished st) (ps_workers st)
  | PcMetaWritten =>
      match build (ps_world st) with
      | (Ok tectonic, w) =>
          PState w (PcSpawn num_worker_threads tectonic) (ps_log st)
                 (ps_queue st) (ps_unfinished st) (ps_workers st)
      | (Raise e, w) =>
          PState w (PcCrashed e) (ps_log st)
                 (ps_queue st) (ps_unfinished st) (ps_workers st)
      end
  | PcSpawn (S k) tectonic =>
      PState (ps_world st) (PcSpawn k tectonic) (ps_log st) (ps_queue st)
             (ps_unfinished st) (ps_workers st ++ [WGet tectonic])
  | PcSpawn O _ => set_pc st (PcEnqueue (i_samples inp))
  | PcEnqueue (s :: rest) =>
      if bool_decide (PosixPath.stem (s_path s) ∈ dom (i_sample_maindoc inp))
      then PState (ps_world st) (PcEnqueue rest) (ps_log st)
                  (ps_queue st ++ [Some s]) (S (ps_unfinished st)) (ps_workers st)
      else set_pc st (PcEnqueue rest)
  | PcEnqueue [] => set_pc st PcJoin
  | PcJoin =>
      if Nat.eqb (ps_unfinished st) 0 then set_pc st (PcSentinel num_worker_threads)
      else st
  | PcSentinel (S k) =>
      PState (ps_world st) (PcSentinel k) (ps_log st) (ps_queue st ++ [None])
             (ps_unfinished st) (ps_workers st)
  | PcSentinel O => set_pc st PcJoinThreads
  | PcJoinThreads =>
      if all_exited (ps_workers st) then set_pc st PcDone else st
  | PcDone => st
  | PcCrashed _ => st
  end.

Definition set_worker (st : pstate) (i : nat) (ws : wstate) : pstate :=
  PState (ps_world st) (ps_pc st) (ps_log st) (ps_queue st) (ps_unfinished st)
         (<[i := ws]> (ps_workers st)).

(** One step of worker [i]. *)
Definition worker_step (i : nat) (st : pstate) : pstate :=
  match ps_workers st !! i with
  | Some (WGet tectonic) =>
      match ps_queue st with
      | [] => st
      | None :: q =>
          PState (ps_world st) (ps_pc st) (ps_log st) q (ps_unfinished st)
                 (<[i := WExit]> (ps_workers st))
      | Some item :: q =>
          match i_sample_maindoc inp !! PosixPath.stem (s_path item) with
          | None =>
              PState (ps_world st) (ps_pc st) (ps_log st) q (ps_unfinished st)
                     (<[i := WDead (KeyError (PosixPath.stem (s_path item)))]>
                        (ps_workers st))
          | Some maindoc =>
              match do_work os_run item maindoc tectonic (ps_world st) with
              | (Ok r, w) =>
                  PState w (ps_pc st) (ps_log st) q (pred (ps_unfinished st))
                         (<[i := WWrite tectonic r]> (ps_workers st))
              | (Raise e, w) =>
                  PState w (ps_pc st) (ps_log st) q (ps_unfinished st)
                         (<[i := WDead e]> (ps_workers st))
              end
          end
      end
  | Some (WWrite tectonic r) =>
      PState (ps_world st) (ps_pc st)
             (Some (default [] (ps_log st) ++ [RecordLine r]))
             (ps_queue st) (ps_unfinished st)
             (<[i := WGet tectonic]> (ps_workers st))
  | _ => st
  end.

Inductive action : Type :=
| Main
| Worker (i : nat).

Definition step (a : action) (st : pstate) : pstate :=
  match a with
  | Main => coord_step st
  | Worker i => worker_step i st
  end.

(** The state after the threads have run in the order [sched]. *)
Definition run (sched : list action) (st : pstate) : pstate :=
  fold_left (fun s a => step a s) sched st.

End Pipeline.

End ReportCI.

(** [list(filter(p, l))] for a test that makes library calls. *)
Fixpoint filter_ {A} (p : A → M bool) (l : list A) : M (list A) :=
  match l with
  | [] => ret []
  | x :: l' =>
      b <- p x ;;
      rest <- filter_ p l' ;;
      ret (if b then x :: rest else rest)
  end.

(** ** report.py *)

Module Report.

Definition marker : string := "\documentclass".

Definition is_texfile (x : string) : M bool :=
  if String.eqb (PosixPath.suffix x) ".tex" then ret true
  else mt <- OS.sniff x ;; ret (String.eqb mt "text/x-tex").

(** The loop of [get_maindoc] and the assertion after it. *)
Fixpoint first_with_marker (texfiles : list string) : M string :=
  match texfiles with
  | [] => raise (AssertionError "multiple entry points?")
  | x :: rest =>
      data <- OS.read x ;;
      if Str.contains marker data then ret x else first_with_marker rest
  end.

Definition get_maindoc (p : string) : M string :=
  entries <- OS.iterdir p ;;
  texfiles <- filter_ is_texfile entries ;;
  if Nat.ltb (length texfiles) 2 then
    match texfiles with
    | x :: _ => ret x
    | [] => raise IndexError
    end
  else first_with_marker texfiles.

Definition dquote : string := String "034"%char EmptyString.

(** The dictionary [TAGS], in the order it is written. *)
Definition TAGS : list (string * string) :=
  [ ("no-font-for-pdf",
     "Cannot proceed without .vf or " +:+ dquote +:+ "physical" +:+ dquote
       +:+ " font for PDF output...");
    ("latex-file-not-found", "LaTeX Error: File");
    ("undefined-control-sequence", "! Undefined control sequence.");
    ("not-latex", "LaTeX Error: Missing \begin{document}");
    ("uses-inputenc",
     "Package inputenc Error: inputenc is not designed for xetex or luatex.");
    ("latex-error", "LaTeX Error");
    ("bib-failed", "\end{thebibliography}") ].

(** The comprehension of [IMPLIED_TAGS], over any table. *)
Definition implied_by (tags : list (string * string)) (k v : string) : gset string :=
  list_to_set
    (map fst (List.filter (fun kv => Str.contains (snd kv) v
                                     && negb (String.eqb (fst kv) k)) tags)).

Definition implied_tags (tags : list (string * string)) : gmap string (gset string) :=
  list_to_map (map (fun kv => (fst kv, implied_by tags (fst kv) (snd kv))) tags).

Definition IMPLIED_TAGS : gmap string (gset string) :=
  Eval vm_compute in implied_tags TAGS.

(** The part of [get_tags] after the log is read. A tag of [res] is a
    key of the table, so [implied !! tag] always finds it. *)
Definition classify_with (tags : list (string * string))
    (implied : gmap string (gset string)) (data : string) : list string :=
  let res := map fst (List.filter (fun kv => Str.contains (snd kv) data) tags) in
  let redundant :=
    foldl (fun a b => a ∪ b) ∅ (map (fun tag => default ∅ (implied !! tag)) res) in
  Str.sorted (elements ((list_to_set res : gset string) ∖ redundant)).

Definition get_tags (p : string) : M (list string) :=
  e <- OS.exists_ p ;;
  if e then data <- OS.read p ;; ret (classify_with TAGS IMPLIED_TAGS data)
  else ret ["no-log-file"].

Definition _EXTS (mt : string) : string :=
  if String.eqb mt "application/pdf" then ".pdf"
  else if String.eqb mt "text/plain" then ".txt"
  else ".bin".

Definition add_exclude (digest : string) : M unit :=
  fun w => (Ok tt, World (w_fs w) (w_trace w) (w_cwd w) (w_tmp w) (w_clock w)
                         ({[digest]} ∪ w_exclude w)).

Definition get_exclude : M (gset string) := fun w => (Ok (w_exclude w), w).

Definition capture_step (exclude_all : bool) (f : string) (captured : gmap string string)
    : M (gmap string string) :=
  isf <- OS.is_file f ;;
  if negb isf then ret captured else
  mt <- OS.sniff f ;;
  h <- sha256sum f ;;
  let digest := Str.take 16 h in
  if exclude_all then add_exclude digest ;;; ret captured
  else
    excl <- get_exclude ;;
    if bool_decide (digest ∈ excl) then ret captured
    else
      let ext := _EXTS mt in
      let target := PosixPath.div "objects" (digest +:+ ext) in
      ex <- OS.exists_ target ;;
      (if negb ex then OS.copy f target else ret tt) ;;;
      ret (<[PosixPath.name f := digest +:+ ext]> captured).

Definition capture_files (d : string) (exclude_all : bool) : M (gmap string string) :=
  fs <- OS.iterdir d ;;
  for_acc fs (capture_step exclude_all) ∅.

Module TestEnv.

Definition init (s : sample) : M string :=
  tmpdir <- OS.mkdtemp "ttrac" ;;
  log (EvSniff (s_path s)) ;;;
  (if String.eqb (s_mime s) "application/x-gzip" then ret tt
   else raise (AssertionError "")) ;;;
  let submission_data_path := PosixPath.div tmpdir (PosixPath.stem (s_path s)) in
  pl <- gunzip_to s submission_data_path ;;
  mt <- OS.sniff submission_data_path ;;
  (if String.eqb mt "application/x-tar"
   then tar <- tar_open submission_data_path pl ;;
        extractall tar tmpdir ;;;
        OS.unlink submission_data_path
   else ret tt) ;;;
  ret tmpdir.

Definition exit_ (tmpdir : string) : M unit := OS.rmtree tmpdir.

End TestEnv.

End Report.

(** ** prepare_dataset.py *)

Module PrepareDataset.

Module TestEnv.

Definition init (s : sample) : M string :=
  tmpdir <- OS.mkdtemp "ttrac" ;;
  log (EvSniff (s_path s)) ;;;
  (if String.eqb (s_mime s) "application/gzip" then ret tt
   else raise (AssertionError "")) ;;;
  let submission_data_path := PosixPath.div tmpdir (PosixPath.stem (s_path s)) in
  pl <- gunzip_to s submission_data_path ;;
  mt <- OS.sniff submission_data_path ;;
  (if String.eqb mt "application/x-tar"
   then tar <- tar_open submission_data_path pl ;;
        ReportCI.TestEnv.safe_extract tar tmpdir ;;;
        OS.unlink submission_data_path
   else ret tt) ;;;
  ret tmpdir.

Definition exit_ (tmpdir : string) : M unit := OS.rmtree tmpdir.

End TestEnv.

Section Heuristics.

(** The module [heuristics] is imported, not part of these sources:
    its [get_maindoc(d, sample)], which returns a path or nothing,
    and its list [EXCLUDED_SAMPLES] are parameters. *)
Variable get_maindoc : string → sample → M (option string).
Variable EXCLUDED_SAMPLES : list string.

(** [prepare(sample)]: [None] is Python's [None]. *)
Definition prepare (s : sample) : M (option string) :=
  if st_size s <? 100 then ret None
  else if bool_decide (PosixPath.stem (s_path s) ∈ EXCLUDED_SAMPLES) then ret None
  else
    with_ (TestEnv.init s) TestEnv.exit_
          (fun d =>
             maindoc <- get_maindoc d s ;;
             match maindoc with
             | Some p => ret (Some (PosixPath.name p))
             | None => ret None
             end).

(** The loop of [prepare_dataset] over the samples of the corpus;
    the result is the dictionary written to [corpus + ".json"]. *)
Definition prepare_dataset (samples : list sample) : M (gmap string string) :=
  for_acc samples
    (fun s output =>
       res <- prepare s ;;
       match res with
       | Some r =>
           if negb (String.eqb r "")
           then ret (<[PosixPath.stem (s_path s) := r]> output)
           else ret output
       | None => ret output
       end) ∅.

End Heuristics.

End PrepareDataset.

(** * Vocabulary of the properties *)

Module Tags.





End Tags.

(** The world with more events on its trace. *)
Definition add_trace (w : world) (t : list event) : world :=
  World (w_fs w) (w_trace w ++ t) (w_cwd w) (w_tmp w) (w_clock w) (w_exclude w).

(** The node a path resolves to. *)
Definition resolves (w : world) (x : string) : option node :=
  FS.lookup (PosixPath.abspath (w_cwd w) x) (w_fs w).

(** The files a trace opened and read. *)
Definition reads (t : list event) : list string :=
  omap (fun e => match e with EvRead p => Some p | _ => None end) t.

Module Entry.



Definition is_file (w : world) (x : string) : Prop :=
  ∃ d, resolves w x = Some (File d).

End Entry.

(** Worlds and samples the statements are tried on. *)
Module Examples.

Definition tex : filedata := FileData "\documentclass{article} \begin{document}" "text/x-tex".
Definition sty : filedata := FileData "\ProvidesPackage{x}" "text/x-tex".
Definition pdf : filedata := FileData "%PDF-1.5" "application/pdf".
Definition tarball : filedata := FileData "ustar" "application/x-tar".

Definition w0 : world :=
  World [("/tmp", Dir); ("/work", Dir); ("/work/objects", Dir)] [] "/work" 0 0 ∅.

(** A log with a missing-file error of LaTeX. *)
Definition w_log : world :=
  World [("/work", Dir);
         ("/work/main.log",
          File (FileData "! LaTeX Error: File `a.sty' not found." "text/plain"))]
        [] "/work" 0 0 ∅.

(** Workspaces with one candidate, with two of which one has the
    marker, with two that both have it, and with two without it. *)
Definition w_one : world :=
  World [("/ws", Dir); ("/ws/main.tex", File sty); ("/ws/fig.pdf", File pdf)]
        [] "/work" 0 0 ∅.



Definition w_none : world :=
  World [("/ws", Dir); ("/ws/a.tex", File sty); ("/ws/b.tex", File sty)]
        [] "/work" 0 0 ∅.

End Examples.

(** Samples: a well-formed tar archive; one with a member that leaves
    the workspace for a sibling directory whose name starts with the
    name of the workspace; one with a member that climbs to the root;
    a flat gzip file; a file that is not gzip data. *)
Module Samples.

Definition png : filedata := FileData "PNG" "image/png".

Definition archive (members : list tarmember) : sample :=
  Sample "/corpus/1234.gz" 500 "application/x-gzip"
         (Some (Payload Examples.tarball (Some members))).

Definition good : sample :=
  archive [TarMember "main.tex" (File Examples.tex); TarMember "fig/a.png" (File png)].

Definition sibling : sample :=
  archive [TarMember "main.tex" (File Examples.tex);
           TarMember "../tmp0ttrac2/evil" (File png)].

Definition climbing : sample :=
  archive [TarMember "main.tex" (File Examples.tex);
           TarMember "../../etc/evil" (File png)].

Definition flat : sample :=
  Sample "/corpus/1234.gz" 500 "application/x-gzip" (Some (Payload Examples.tex None)).

Definition withdrawn : sample :=
  Sample "/corpus/5678.gz" 50 "application/x-gzip" (Some (Payload Examples.tex None)).

(** A compiler that writes a PDF and a log in 1.5 seconds, and one
    that is still running after twenty-five minutes. *)
Definition tectonic : program := fun argv wd f =>
  ProcResult 0 ""
    (FS.write (PosixPath.join wd "main.log") (File (FileData "%PDF-1.5" "text/plain"))
       (FS.write (PosixPath.join wd "main.pdf") (File Examples.pdf) f))
    1500.


End Samples.

(** A script [obeys P E] when, from any world, it only adds events
    that satisfy [P] to the trace and only raises exceptions that
    satisfy [E]. *)
Definition obeys {A} (P : event → Prop) (E : exn → Prop) (m : M A) : Prop :=
  ∀ w, (∃ t, w_trace (snd (m w)) = w_trace w ++ t ∧ Forall P t)
       ∧ (∀ e, fst (m w) = Raise e → E e).

Definition any_event (e : event) : Prop := True.
Definition any_exn (e : exn) : Prop := True.
Definition not_timeout (e : exn) : Prop := e ≠ TimeoutExpired.

(** Events of [tarfile]. *)
Definition tar_event (e : event) : Prop :=
  match e with
  | EvTarOpen _ | EvExtract _ => True
  | _ => False
  end.

Definition not_tar_event (e : event) : Prop := ¬ tar_event e.

Definition not_copy_event (e : event) : Prop :=
  match e with
  | EvCopy _ _ => False
  | _ => True
  end.

(** The name [capture_files] of [report_ci.py] gives the object of a
    file: sixteen hexadecimal digits of its SHA-256 and its suffix. *)
Module Store.

Definition digest16 (d : filedata) : string :=
  Str.take 16 (SHA256.hexdigest (f_bytes d)).

Definition ext_of (f : string) : string :=
  if String.eqb (PosixPath.suffix f) "" then ".bin" else PosixPath.suffix f.

Definition object_name (f : string) (d : filedata) : string :=
  digest16 d +:+ ext_of f.

Definition target (f : string) (d : filedata) : string :=
  PosixPath.div "objects" (object_name f d).

Definition is_excluded (excluded : option ReportCI.captured) (digest : string) : bool :=
  match excluded with
  | Some ex => ReportCI.contains_digest ex digest
  | None => false
  end.

(** The regular files among the entries of a listing. *)
Definition files_of (w : world) (l : list string) : list (string * filedata) :=
  omap (fun f => match resolves w f with
                 | Some (File d) => Some (f, d)
                 | _ => None
                 end) l.

End Store.

(** One step of the loop of [capture_files], seen from the file
    system: it keeps the working directory; a path that held a node
    keeps it; a path that is new holds a file under the name of its
    own digest. *)
Definition store_grows (w w' : world) : Prop :=
  w_cwd w' = w_cwd w
  ∧ (∀ p n, FS.lookup p (w_fs w) = Some n → FS.lookup p (w_fs w') = Some n)
  ∧ (∀ p n, FS.lookup p (w_fs w) = None → FS.lookup p (w_fs w') = Some n →
            ∃ f d, n = File d ∧ p = PosixPath.abspath (w_cwd w) (Store.target f d)).

(** The digests of the regular files of a listing, and the events of
    hashing them one after the other. *)
Definition digests (w : world) (l : list string) : gset string :=
  list_to_set (map (fun fd => Store.digest16 (snd fd)) (Store.files_of w l)).

Definition hashes (w : world) (l : list string) : list event :=
  map (fun fd => EvHash (fst fd)) (Store.files_of w l).


(** A workspace after a compilation: the source, the PDF, and a second
    file with the bytes of the PDF; the object store is empty. *)
Definition w_ws : world :=
  World [("/work", Dir); ("/work/objects", Dir); ("/ws", Dir);
         ("/ws/main.tex", File Examples.tex); ("/ws/main.pdf", File Examples.pdf);
         ("/ws/copy.pdf", File Examples.pdf); ("/ws/fig", Dir)]
        [] "/work" 0 0 ∅.

Definition ws_listing : list string :=
  ["/ws/main.tex"; "/ws/main.pdf"; "/ws/copy.pdf"; "/ws/fig"].

(** ** The pipeline: what the threads account for *)

Module Pipe.

Import ReportCI.

Definition stem_of (s : sample) : string := PosixPath.stem (s_path s).

Section Spec.

Variable inp : inputs.

(** The test of the loop that fills the queue. *)
Definition in_map (s : sample) : bool :=
  bool_decide (stem_of s ∈ dom (i_sample_maindoc inp)).

(** The samples the main thread puts into the queue, in corpus order. *)
Definition enqueued : list sample := List.filter in_map (i_samples inp).

(** The samples the main thread has still to put; nothing is known
    after a crash. *)
Definition pending (p : pc) : option (list sample) :=
  match p with
  | PcStart | PcOpened _ | PcMetaWritten | PcSpawn _ _ => Some enqueued
  | PcEnqueue rest => Some (List.filter in_map rest)
  | PcJoin | PcSentinel _ | PcJoinThreads | PcDone => Some []
  | PcCrashed _ => None
  end.

End Spec.

(** The samples in the queue, without the sentinels. *)
Definition queued (q : list (option sample)) : list sample := omap id q.

Definition wheld (ws : wstate) : list string :=
  match ws with
  | WWrite _ r => [r_sample r]
  | _ => []
  end.

(** The samples whose record a worker holds and has not written yet. *)
Definition held (ws : list wstate) : list string := flat_map wheld ws.

Definition wdead (ws : wstate) : list exn :=
  match ws with
  | WDead e => [e]
  | _ => []
  end.

(** The exceptions that ended worker threads. *)
Definition dead (ws : list wstate) : list exn := flat_map wdead ws.

(** The records of a log. *)
Definition records (log : option (list logline)) : list report_record :=
  omap (fun l => match l with RecordLine r => Some r | MetaLine _ => None end)
       (default [] log).

Definition before_spawn (p : pc) : Prop :=
  match p with
  | PcStart | PcOpened _ | PcMetaWritten | PcCrashed _ => True
  | _ => False
  end.

Definition past_join (p : pc) : Prop :=
  match p with
  | PcSentinel _ | PcJoinThreads | PcDone => True
  | _ => False
  end.

(** The log starts with the one metadata line; records follow. *)
Definition meta_first (log : option (list logline)) : Prop :=
  ∃ m rs, log = Some (MetaLine m :: map RecordLine rs).

Definition log_shape (st : pstate) : Prop :=
  match ps_pc st with
  | PcStart => ps_log st = None
  | PcOpened _ => ps_log st = Some []
  | PcCrashed _ => ps_log st = None ∨ meta_first (ps_log st)
  | _ => meta_first (ps_log st)
  end.

Definition ms (l : list string) : gmultiset string := list_to_set_disj l.

(** What holds in every state of a run. *)
Record inv (inp : inputs) (st : pstate) : Prop := Inv {
  inv_no_workers : before_spawn (ps_pc st) → ps_workers st = [] ∧ ps_queue st = [];
  inv_log : log_shape st;
  inv_unfinished :
    ps_unfinished st = (length (queued (ps_queue st)) + length (dead (ps_workers st)))%nat;
  inv_in_map : ∀ s, s ∈ queued (ps_queue st) → in_map inp s = true;
  inv_account : ∀ p,
    pending inp (ps_pc st) = Some p → dead (ps_workers st) = [] →
    ms (map stem_of p) ⊎ ms (map stem_of (queued (ps_queue st)))
      ⊎ ms (held (ps_workers st)) ⊎ ms (map r_sample (records (ps_log st)))
    = ms (map stem_of (enqueued inp));
  inv_past_join :
    past_join (ps_pc st) → queued (ps_queue st) = [] ∧ dead (ps_workers st) = [];
  inv_done : ps_pc st = PcDone → all_exited (ps_workers st) = true;
  inv_workers : (length (ps_workers st) ≤ num_worker_threads)%nat
                ∧ ∀ k t, ps_pc st = PcSpawn k t →
                         (length (ps_workers st) + k = num_worker_threads)%nat
}.

End Pipe.

(** * Theorems *)

(** ** Strings *)

Lemma prefix_app (n post : string) : String.prefix n (n +:+ post) = true.
Proof. induction n as [|c n IH]; simpl; [by destruct post|]. by destruct (ascii_dec c c). Qed.

Lemma prefix_inv (n h : string) :
  String.prefix n h = true → ∃ post, h = n +:+ post.
Proof.
  revert h. induction n as [|c n IH]; intros h H.
  - by exists h.
  - destruct h as [|d h]; simpl in H; [done|].
    destruct (ascii_dec c d) as [->|]; [|done].
    destruct (IH _ H) as [post ->]. by exists post.
Qed.

Lemma contains_eq (n h : string) :
  Str.contains n h =
  String.prefix n h || match h with "" => false | String _ h' => Str.contains n h' end.
Proof. by destruct h. Qed.

(** [Str.contains] is the substring test: the needle occurs somewhere
    between a prefix and a suffix of the text. *)
Lemma contains_spec (n h : string) :
  Str.contains n h = true ↔ ∃ pre post, h = pre +:+ n +:+ post.
Proof.
  split.
  - induction h as [|c h IH]; rewrite contains_eq; intros H;
      apply orb_true_iff in H as [H|H]; try done.
    + destruct (prefix_inv _ _ H) as [post ->]. by exists "", post.
    + destruct (prefix_inv _ _ H) as [post Hp]. exists "", post. by rewrite Hp.
    + destruct (IH H) as (pre & post & ->). by exists (String c pre), post.
  - intros (pre & post & ->). induction pre as [|c pre IH].
    + rewrite contains_eq. change ("" +:+ n +:+ post) with (n +:+ post).
      by rewrite prefix_app.
    + change (String c pre +:+ n +:+ post) with (String c (pre +:+ n +:+ post)).
      rewrite contains_eq, IH. apply orb_true_r.
Qed.





(** ** The tag classifier *)


Section Classifier.

Variable tags : list (string * string).
Hypothesis tags_nodup : NoDup (map fst tags).









End Classifier.





(** C9. When the log file does not exist, [get_tags] returns the one
    tag [no-log-file] and leaves the world as it was: nothing is read
    and nothing is matched. *)
Theorem get_tags_no_log_file (w : world) (p : string) :
  FS.lookup (PosixPath.abspath (w_cwd w) p) (w_fs w) = None →
  Report.get_tags p w = (Ok ["no-log-file"], w).
Proof.
  intros H. unfold Report.get_tags, OS.exists_, bind, abs, get_fs, ret, FS.mem.
  simpl. by rewrite H.
Qed.

Example get_tags_w_log :
  fst (Report.get_tags "main.log" Examples.w_log) = Ok ["latex-file-not-found"].
Proof. by vm_compute. Qed.


Lemma get_tags_no_log_file_witness :
  Report.get_tags "main.log" Examples.w0 = (Ok ["no-log-file"], Examples.w0).
Proof. exact (get_tags_no_log_file Examples.w0 "main.log" eq_refl). Defined.

(** ** Running the monad *)

Lemma bind_ok {A B} (m : M A) (k : A → M B) (w w' : world) (a : A) :
  m w = (Ok a, w') → bind m k w = k a w'.
Proof. intros H. unfold bind. by rewrite H. Qed.

Lemma bind_raise {A B} (m : M A) (k : A → M B) (w w' : world) (e : exn) :
  m w = (Raise e, w') → bind m k w = (Raise e, w').
Proof. intros H. unfold bind. by rewrite H. Qed.


Lemma resolves_add_trace (w : world) (t : list event) (x : string) :
  resolves (add_trace w t) x = resolves w x.
Proof. done. Qed.

Lemma add_trace_add_trace (w : world) (t1 t2 : list event) :
  add_trace (add_trace w t1) t2 = add_trace w (t1 ++ t2).
Proof. unfold add_trace. simpl. by rewrite app_assoc. Qed.

Lemma add_trace_nil (w : world) : add_trace w [] = w.
Proof. destruct w. unfold add_trace. simpl. by rewrite app_nil_r. Qed.


Lemma run_log (w : world) (e : event) : log e w = (Ok tt, add_trace w [e]).
Proof. done. Qed.

Lemma run_stat (w : world) (x : string) (d : filedata) :
  resolves w x = Some (File d) → OS.stat x w = (Ok d, w).
Proof.
  unfold resolves, OS.stat, bind, abs, get_fs, ret. simpl. by intros ->.
Qed.



Lemma run_exists (w : world) (x : string) :
  OS.exists_ x w
  = (Ok (match resolves w x with Some _ => true | None => false end), w).
Proof. done. Qed.

Lemma run_is_file (w : world) (x : string) :
  OS.is_file x w
  = (Ok (match resolves w x with Some (File _) => true | _ => false end), w).
Proof. done. Qed.

(** ** The entry document *)





Example get_maindoc_w_one :
  Report.get_maindoc "/ws" Examples.w_one
  = (Ok "/ws/main.tex", add_trace Examples.w_one [EvSniff "/ws/fig.pdf"]).
Proof. by vm_compute. Qed.

Example get_maindoc_w_none :
  fst (Report.get_maindoc "/ws" Examples.w_none)
  = Raise (AssertionError "multiple entry points?").
Proof. by vm_compute. Qed.

Example get_maindoc_empty :
  fst (Report.get_maindoc "/work/objects" Examples.w0) = Raise IndexError.
Proof. by vm_compute. Qed.



(** ** The sandbox extractor *)

Lemma for_check_ok {A} (l : list A) (check : A → bool) (e : exn) (w : world) :
  forallb check l = true →
  for_ l (fun x => ok <- ret (check x) ;; if negb ok then raise e else ret tt) w
  = (Ok tt, w).
Proof.
  induction l as [|x l IH]; simpl; [done|]. intros H.
  apply andb_true_iff in H as [Hx Hl]. unfold bind at 1 2, ret at 1. rewrite Hx. simpl.
  by apply IH.
Qed.

Lemma for_check_fail {A} (l : list A) (check : A → bool) (e : exn) (w : world) :
  forallb check l = false →
  for_ l (fun x => ok <- ret (check x) ;; if negb ok then raise e else ret tt) w
  = (Raise e, w).
Proof.
  induction l as [|x l IH]; simpl; [done|]. intros H.
  unfold bind at 1 2, ret at 1. destruct (check x); simpl; [by apply IH|done].
Qed.

(** The test [safe_extract] makes for a member, in the world [w]. *)
Definition passes_check (w : world) (path : string) (m : tarmember) : bool :=
  String.eqb
    (PosixPath.commonprefix (PosixPath.abspath (w_cwd w) path)
       (PosixPath.abspath (w_cwd w) (PosixPath.join path (tm_name m))))
    (PosixPath.abspath (w_cwd w) path).

Lemma safe_extract_checks (w : world) (tar : list tarmember) (path : string) :
  ReportCI.TestEnv.safe_extract tar path w
  = if forallb (passes_check w path) tar then extractall tar path w
    else (Raise (Exception "Attempted Path Traversal in Tar File"), w).
Proof.
  unfold ReportCI.TestEnv.safe_extract.
  assert (∀ w', w_cwd w' = w_cwd w →
    for_ tar (fun member =>
       ok <- ReportCI.TestEnv.is_within_directory path
               (PosixPath.join path (tm_name member)) ;;
       if negb ok then raise (Exception "Attempted Path Traversal in Tar File")
       else ret tt) w'
    = for_ tar (fun x => ok <- ret (passes_check w path x) ;;
                 if negb ok then raise (Exception "Attempted Path Traversal in Tar File")
                 else ret tt) w') as Heq.
  { induction tar as [|m tar IH]; intros w' Hc; simpl; [done|].
    unfold bind at 1 2 5 6. unfold ReportCI.TestEnv.is_within_directory, passes_check,
      bind, abs, ret. simpl. rewrite Hc.
    destruct (String.eqb _ _); simpl; [by apply IH|done]. }
  unfold bind at 1. rewrite Heq by done.
  destruct (forallb (passes_check w path) tar) eqn:E.
  - by rewrite (for_check_ok _ _ _ w E).
  - by rewrite (for_check_fail _ _ _ w E).
Qed.

(** Every member is tested before any is extracted: a member that
    fails the test leaves the file system and the trace as they were. *)
Lemma safe_extract_rejects_first (w : world) (tar : list tarmember) (path : string)
    (m : tarmember) :
  m ∈ tar → passes_check w path m = false →
  ReportCI.TestEnv.safe_extract tar path w
  = (Raise (Exception "Attempted Path Traversal in Tar File"), w).
Proof.
  intros Hin Hm. rewrite safe_extract_checks.
  destruct (forallb _ tar) eqn:E; [|done].
  rewrite forallb_forall in E. rewrite (E m) in Hm; [done|]. by apply list_elem_of_In.
Qed.

(** C1 fails on the code. The test compares absolute paths character
    by character: a member that resolves into a sibling directory
    whose name starts with the name of the workspace passes it and is
    written outside the workspace; and [report.py] extracts without
    any test. *)
Theorem safe_extract_sibling_escape :
  let r := ReportCI.TestEnv.init Samples.sibling true Examples.w0 in
  let r' := Report.TestEnv.init Samples.climbing Examples.w0 in
  fst r = Ok "/tmp/tmp0ttrac"
  ∧ PosixPath.inside "/tmp/tmp0ttrac"
      (PosixPath.abspath "/work" (PosixPath.join "/tmp/tmp0ttrac" "../tmp0ttrac2/evil"))
    = false
  ∧ FS.lookup "/tmp/tmp0ttrac2/evil" (w_fs (snd r)) = Some (File Samples.png)
  ∧ FS.files_outside "/tmp/tmp0ttrac" (w_fs (snd r))
    = FS.files_outside "/tmp/tmp0ttrac" (w_fs Examples.w0)
      ++ ["/tmp/tmp0ttrac2"; "/tmp/tmp0ttrac2/evil"]
  ∧ fst r' = Ok "/tmp/tmp0ttrac"
  ∧ FS.lookup "/etc/evil" (w_fs (snd r')) = Some (File Samples.png).
Proof. by vm_compute. Qed.

Example safe_extract_rejects_climbing :
  ReportCI.TestEnv.safe_extract
    [TarMember "main.tex" (File Examples.tex); TarMember "../../etc/evil" (File Samples.png)]
    "/tmp/tmp0ttrac" Examples.w0
  = (Raise (Exception "Attempted Path Traversal in Tar File"), Examples.w0).
Proof. by vm_compute. Qed.

(** ** The workspace *)




(** C2 fails on the code when extraction fails: [__init__] raises
    after [mkdtemp], the [with] block is never entered, [__exit__] is
    not called, and the workspace stays behind. *)
Theorem workspace_left_behind_when_extraction_fails :
  let r := ReportCI.do_work Samples.tectonic Samples.climbing "main.tex" "/bin/tectonic"
             Examples.w0 in
  fst r = Raise (Exception "Attempted Path Traversal in Tar File")
  ∧ FS.lookup "/tmp/tmp0ttrac" (w_fs (snd r)) = Some Dir
  ∧ FS.lookup "/tmp/tmp0ttrac/1234" (w_fs (snd r)) = Some (File Examples.tarball)
  ∧ w_trace (snd r)
    = [EvMkdtemp "/tmp/tmp0ttrac"; EvGunzip "/corpus/1234.gz" "/tmp/tmp0ttrac/1234";
       EvTarOpen "/tmp/tmp0ttrac/1234"].
Proof. by vm_compute. Qed.

Example workspace_removed_on_success :
  let r := ReportCI.do_work Samples.tectonic Samples.good "main.tex" "/bin/tectonic"
             Examples.w0 in
  FS.lookup "/tmp/tmp0ttrac" (w_fs (snd r)) = None
  ∧ FS.files_outside "/work" (w_fs (snd r)) = ["/tmp"].
Proof. by vm_compute. Qed.

(** ** What a script may log and raise *)

Section Obeys.

Variable P : event → Prop.
Variable E : exn → Prop.

Lemma obeys_ret {A} (a : A) : obeys P E (ret a).
Proof. intros w. split; [exists []; by rewrite app_nil_r|done]. Qed.

Lemma obeys_raise {A} (e : exn) : E e → obeys P E (@raise A e).
Proof.
  intros He w. split; [exists []; by rewrite app_nil_r|]. by intros e' [= <-].
Qed.

Lemma obeys_bind {A B} (m : M A) (k : A → M B) :
  obeys P E m → (∀ a, obeys P E (k a)) → obeys P E (bind m k).
Proof.
  intros Hm Hk w. unfold bind. destruct (Hm w) as [(t & Ht & HP) He].
  destruct (m w) as [[a|e] w1]; simpl in *.
  - destruct (Hk a w1) as [(t' & Ht' & HP') He']. split; [|done].
    exists (t ++ t'). rewrite Ht', Ht, app_assoc. split; [done|].
    by apply Forall_app.
  - split; [by exists t|]. intros e' [= <-]. by apply He.
Qed.

Lemma obeys_log (e : event) : P e → obeys P E (log e).
Proof. intros He w. split; [|done]. exists [e]. split; [done|]. by constructor. Qed.

Lemma obeys_abs (p : string) : obeys P E (abs p).
Proof. intros w. split; [exists []; by rewrite app_nil_r|done]. Qed.

Lemma obeys_get_fs : obeys P E get_fs.
Proof. intros w. split; [exists []; by rewrite app_nil_r|done]. Qed.

Lemma obeys_set_fs (f : FS.t) : obeys P E (set_fs f).
Proof. intros w. split; [exists []; simpl; by rewrite app_nil_r|done]. Qed.

Lemma obeys_time_time : obeys P E time_time.
Proof. intros w. split; [exists []; by rewrite app_nil_r|done]. Qed.

Lemma obeys_advance (dt : Z) : obeys P E (advance dt).
Proof. intros w. split; [exists []; simpl; by rewrite app_nil_r|done]. Qed.

Lemma obeys_for {A} (l : list A) (body : A → M unit) :
  (∀ x, obeys P E (body x)) → obeys P E (for_ l body).
Proof.
  intros Hb. induction l as [|x l IH]; simpl; [apply obeys_ret|].
  apply obeys_bind; [apply Hb|done].
Qed.

Lemma obeys_for_acc {A S} (l : list A) (body : A → S → M S) (s : S) :
  (∀ x s, obeys P E (body x s)) → obeys P E (for_acc l body s).
Proof.
  intros Hb. revert s. induction l as [|x l IH]; intros s; simpl; [apply obeys_ret|].
  apply obeys_bind; [apply Hb|done].
Qed.

Lemma obeys_filter {A} (p : A → M bool) (l : list A) :
  (∀ x, obeys P E (p x)) → obeys P E (filter_ p l).
Proof.
  intros Hp. induction l as [|x l IH]; simpl; [apply obeys_ret|].
  apply obeys_bind; [apply Hp|]. intros b.
  apply obeys_bind; [done|]. intros rest. apply obeys_ret.
Qed.

Lemma obeys_with {A B} (init : M A) (exit_ : A → M unit) (body : A → M B) :
  obeys P E init → (∀ a, obeys P E (exit_ a)) → (∀ a, obeys P E (body a)) →
  obeys P E (with_ init exit_ body).
Proof.
  intros Hi Hx Hb w. unfold with_. destruct (Hi w) as [(t & Ht & HP) He].
  destruct (init w) as [[a|e] w1]; simpl in *.
  2:{ split; [by exists t|]. intros e' [= <-]. by apply He. }
  destruct (Hb a w1) as [(t1 & Ht1 & HP1) He1].
  destruct (body a w1) as [[b|e] w2]; simpl in *;
    destruct (Hx a w2) as [(t2 & Ht2 & HP2) He2];
    destruct (exit_ a w2) as [[[]|e'] w3]; simpl in *;
    (split; [exists (t ++ t1 ++ t2); rewrite Ht2, Ht1, Ht, <- !app_assoc;
             split; [done|]; by rewrite !Forall_app
            |intros ? [= <-]; eauto]).
Qed.

End Obeys.

(** A handler for [TimeoutExpired] takes that exception out of what
    the script may raise. *)
Lemma obeys_try_timeout {A} (P : event → Prop) (E : exn → Prop) (m h : M A) :
  obeys P any_exn m → obeys P E h → (∀ e, e ≠ TimeoutExpired → E e) →
  obeys P E (try_timeout m h).
Proof.
  intros Hm Hh HE w. unfold try_timeout. destruct (Hm w) as [(t & Ht & HP) _].
  destruct (m w) as [[a|e] w1]; simpl in *; [split; [by exists t|done]|].
  destruct e; try (split; [by exists t|intros ? [= <-]; by apply HE]).
  destruct (Hh w1) as [(t' & Ht' & HP') He']. split; [|done].
  exists (t ++ t'). rewrite Ht', Ht, app_assoc. split; [done|]. by apply Forall_app.
Qed.

Lemma obeys_weaken {A} (P P' : event → Prop) (E E' : exn → Prop) (m : M A) :
  (∀ e, P e → P' e) → (∀ e, E e → E' e) → obeys P E m → obeys P' E' m.
Proof.
  intros HP HE Hm w. destruct (Hm w) as [(t & Ht & HF) He]. split; [|by eauto].
  exists t. split; [done|]. eapply Forall_impl; eauto.
Qed.

Create HintDb obeys.
#[local] Hint Resolve obeys_ret obeys_raise obeys_log obeys_abs obeys_get_fs obeys_set_fs
  obeys_time_time obeys_advance : obeys.

(** Takes a script apart along its binds and case distinctions. *)
Ltac obeys_go :=
  repeat first
    [ progress intros
    | apply obeys_bind
    | apply obeys_for
    | apply obeys_for_acc
    | apply obeys_filter
    | solve [eauto with obeys]
    | apply obeys_raise; solve [done | unfold not_timeout; done]
    | apply obeys_log; solve [done | unfold not_tar_event, tar_event; tauto
                             | unfold any_event; done]
    | match goal with
      | |- obeys _ _ (match ?x with _ => _ end) => destruct x
      | |- obeys _ _ (if ?b then _ else _) => destruct b
      end ].

Lemma obeys_mkdtemp (P : event → Prop) (E : exn → Prop) (suffix : string) :
  (∀ d, P (EvMkdtemp d)) → E (FileExistsError "/tmp") → obeys P E (OS.mkdtemp suffix).
Proof.
  intros HP HE w. unfold OS.mkdtemp.
  destruct (OS.free_name _ _ _ _) as [[d n]|]; simpl.
  - split; [|done]. exists [EvMkdtemp d]. split; [done|]. by constructor.
  - split; [exists []; by rewrite app_nil_r|]. by intros e [= <-].
Qed.

Ltac obeys_unfold :=
  unfold OS.exists_, OS.is_file, OS.iterdir, OS.read, OS.sniff, OS.write_file,
    OS.unlink, OS.rmtree, OS.makedirs, OS.copy, OS.stat, sha256sum, gunzip_to, tar_open,
    extractall, extract_member, subprocess_run, check_output.

Ltac obeys_solve := obeys_unfold; obeys_go.

Lemma capture_files_obeys (P : event → Prop) (E : exn → Prop)
    (d : string) (excluded : option ReportCI.captured) (as_set : bool) :
  (∀ p, P (EvHash p)) → (∀ p q, as_set = false → P (EvCopy p q)) →
  (∀ e, e ≠ TimeoutExpired → E e) →
  obeys P E (ReportCI.capture_files d excluded as_set).
Proof.
  intros HH HC HE. unfold ReportCI.capture_files, ReportCI.capture_step.
  obeys_unfold.
  repeat first
    [ progress intros
    | apply obeys_bind | apply obeys_for_acc
    | solve [eauto with obeys]
    | apply obeys_raise; apply HE; done
    | apply obeys_log; solve [apply HH | by apply HC]
    | match goal with
      | |- obeys _ _ (match ?x with _ => _ end) => destruct x eqn:?
      | |- obeys _ _ (if ?b then _ else _) => destruct b eqn:?
      end ].
Qed.

Lemma init_obeys (P : event → Prop) (E : exn → Prop) (s : sample) (is_tar : bool) :
  (∀ e, is_tar = true ∨ ¬ tar_event e → P e) →
  (∀ e, e ≠ TimeoutExpired → E e) →
  obeys P E (ReportCI.TestEnv.init s is_tar).
Proof.
  intros HP HE. unfold ReportCI.TestEnv.init, ReportCI.TestEnv.safe_extract,
    ReportCI.TestEnv.is_within_directory.
  obeys_unfold. destruct is_tar.
  - repeat first
      [ progress intros
      | apply obeys_bind | apply obeys_for
      | apply obeys_mkdtemp; [intros; apply HP; by left|by apply HE]
      | solve [eauto with obeys]
      | apply obeys_raise; apply HE; done
      | apply obeys_log; apply HP; by left
      | match goal with
        | |- obeys _ _ (match ?x with _ => _ end) => destruct x eqn:?
        | |- obeys _ _ (if ?b then _ else _) => destruct b eqn:?
        end ].
  - repeat first
      [ progress intros
      | apply obeys_bind
      | apply obeys_mkdtemp; [intros; apply HP; right; unfold tar_event; tauto|by apply HE]
      | solve [eauto with obeys]
      | apply obeys_raise; apply HE; done
      | apply obeys_log; apply HP; right; unfold tar_event; tauto
      | match goal with
        | |- obeys _ _ (match ?x with _ => _ end) => destruct x eqn:?
        | |- obeys _ _ (if ?b then _ else _) => destruct b eqn:?
        end ].
Qed.

Lemma exit_obeys (P : event → Prop) (E : exn → Prop) (d : string) :
  (∀ p, P (EvRmtree p)) → (∀ e, e ≠ TimeoutExpired → E e) →
  obeys P E (ReportCI.TestEnv.exit_ d).
Proof.
  intros HP HE. unfold ReportCI.TestEnv.exit_. obeys_unfold.
  repeat first
    [ progress intros
    | apply obeys_bind
    | solve [eauto with obeys]
    | apply obeys_raise; apply HE; done
    | apply obeys_log; apply HP
    | match goal with
      | |- obeys _ _ (match ?x with _ => _ end) => destruct x eqn:?
      end ].
Qed.

Lemma subprocess_run_obeys (P : event → Prop) (os_run : program)
    (argv : list string) (wd : string) (timeout : Z) :
  P (EvRun argv wd timeout) → obeys P any_exn (subprocess_run os_run argv wd timeout).
Proof.
  intros HP. unfold subprocess_run.
  repeat first
    [ progress intros
    | apply obeys_bind
    | solve [eauto with obeys]
    | apply obeys_raise; done
    | apply obeys_log; apply HP
    | match goal with
      | |- obeys _ _ (if ?b then _ else _) => destruct b eqn:?
      end ].
Qed.

Lemma do_work_body_obeys (P : event → Prop) (E : exn → Prop) (os_run : program)
    (s : sample) (maindoc tectonic d : string) :
  (∀ e, ¬ tar_event e → P e) → (∀ e, e ≠ TimeoutExpired → E e) →
  obeys P E (ReportCI.do_work_body os_run s maindoc tectonic d).
Proof.
  intros HP HE. unfold ReportCI.do_work_body.
  apply obeys_bind; [apply capture_files_obeys; intros; try (apply HP; simpl; tauto); eauto|]. intros ex.
  apply obeys_bind; [apply obeys_time_time|]. intros start.
  apply obeys_bind.
  { apply obeys_try_timeout; [|apply obeys_ret|done].
    apply subprocess_run_obeys. apply HP. simpl. tauto. }
  intros code. apply obeys_bind; [apply obeys_time_time|]. intros stop.
  apply obeys_bind; [apply capture_files_obeys; intros; try (apply HP; simpl; tauto); eauto|].
  intros res. apply obeys_ret.
Qed.

(** [do_work] never raises [TimeoutExpired]. *)
Lemma do_work_no_timeout (os_run : program) (s : sample) (maindoc tectonic : string) :
  obeys any_event not_timeout (ReportCI.do_work os_run s maindoc tectonic).
Proof.
  unfold ReportCI.do_work. apply obeys_with.
  - by apply init_obeys.
  - intros d. by apply exit_obeys.
  - intros d. by apply do_work_body_obeys.
Qed.

(** When the entry is the stem of the sample, [do_work] makes no call
    of [tarfile]. *)
Lemma do_work_flat_no_tar (os_run : program) (s : sample) (tectonic : string) :
  obeys not_tar_event any_exn
    (ReportCI.do_work os_run s (PosixPath.stem (s_path s)) tectonic).
Proof.
  unfold ReportCI.do_work. rewrite String.eqb_refl. apply obeys_with.
  - apply init_obeys; [|done]. by intros e [?|?].
  - intros d. apply exit_obeys; [|done]. intros p. unfold not_tar_event. simpl. tauto.
  - intros d. by apply do_work_body_obeys.
Qed.

(** ** Archive or flat file *)

Lemma lookup_write (p : string) (n : node) (f : FS.t) :
  FS.lookup p (FS.write p n f) = Some n.
Proof.
  induction f as [|[q m] f IH]; simpl; [by rewrite String.eqb_refl|].
  destruct (String.eqb q p) eqn:E; simpl; by rewrite E.
Qed.

Lemma lookup_write_ne (p q : string) (n : node) (f : FS.t) :
  p ≠ q → FS.lookup q (FS.write p n f) = FS.lookup q f.
Proof.
  intros Hne. induction f as [|[r m] f IH]; simpl.
  - apply String.eqb_neq in Hne. by rewrite Hne.
  - destruct (String.eqb r p) eqn:E; simpl.
    + apply String.eqb_eq in E as ->. apply String.eqb_neq in Hne. by rewrite Hne.
    + by rewrite IH.
Qed.

Lemma write_write (p : string) (n m : node) (f : FS.t) :
  FS.write p n (FS.write p m f) = FS.write p n f.
Proof.
  induction f as [|[q k] f IH]; simpl; [by rewrite String.eqb_refl|].
  destruct (String.eqb q p) eqn:E; simpl; rewrite E; [done|by rewrite IH].
Qed.

(** The world after [mkdtemp] and the decompression of the sample. *)
Definition decompressed (w : world) (s : sample) (pl : payload) (d : string) (n : nat)
    : world :=
  let sp := PosixPath.div d (PosixPath.stem (s_path s)) in
  World (FS.write (PosixPath.abspath (w_cwd w) sp) (File (p_data pl))
           (FS.write d Dir (w_fs w)))
        (w_trace w ++ [EvMkdtemp d; EvGunzip (s_path s) sp])
        (w_cwd w) n (w_clock w) (w_exclude w).

Lemma init_decompresses (w : world) (s : sample) (is_tar : bool) (pl : payload)
    (d : string) (n : nat) :
  s_gunzip s = Some pl →
  OS.free_name "ttrac" OS.TMP_MAX (w_tmp w) (w_fs w) = Some (d, n) →
  let sp := PosixPath.div d (PosixPath.stem (s_path s)) in
  FS.lookup (PosixPath.abspath (w_cwd w) sp) (FS.write d Dir (w_fs w)) = None →
  ReportCI.TestEnv.init s is_tar w
  = ((if is_tar
      then tar <- tar_open sp pl ;;
           ReportCI.TestEnv.safe_extract tar d ;;;
           OS.unlink sp
      else ret tt) ;;; ret d) (decompressed w s pl d n).
Proof.
  intros Hgz Hfree sp Hnone. unfold ReportCI.TestEnv.init.
  unfold bind at 1. unfold OS.mkdtemp at 1. rewrite Hfree.
  unfold bind at 1. fold sp.
  assert (gunzip_to s sp
            (World (FS.write d Dir (w_fs w)) (w_trace w ++ [EvMkdtemp d])
                   (w_cwd w) n (w_clock w) (w_exclude w))
          = (Ok pl, decompressed w s pl d n)) as ->; [|done].
  unfold gunzip_to, OS.write_file, decompressed, bind, log, abs, get_fs, set_fs, ret.
  simpl. fold sp. rewrite Hnone, Hgz. simpl. rewrite lookup_write, write_write.
  by rewrite <- app_assoc.
Qed.

Lemma with_extends_init {A B} (init : M A) (exit_ : A → M unit) (body : A → M B)
    (w : world) :
  (∀ a, obeys any_event any_exn (exit_ a)) → (∀ a, obeys any_event any_exn (body a)) →
  ∃ t, w_trace (snd (with_ init exit_ body w)) = w_trace (snd (init w)) ++ t.
Proof.
  intros Hx Hb. unfold with_. destruct (init w) as [[a|e] w1]; simpl.
  2:{ exists []. by rewrite app_nil_r. }
  destruct (Hb a w1) as [(t1 & Ht1 & _) _].
  destruct (body a w1) as [[b|e] w2]; simpl in *;
    destruct (Hx a w2) as [(t2 & Ht2 & _) _];
    destruct (exit_ a w2) as [[[]|e'] w3]; simpl in *;
    exists (t1 ++ t2); by rewrite Ht2, Ht1, app_assoc.
Qed.

(** C10. [do_work] builds the workspace with [is_tar] true exactly
    when the entry of the map differs from the stem of the sample.
    When they are equal, the decompressed bytes stay as one file named
    by the stem, which is the document the compiler is given, and
    [tarfile] is never called; when they differ, the decompressed file
    is opened as a tar archive. *)
Theorem do_work_untars_iff_entry_differs (os_run : program) (w : world) (s : sample)
    (maindoc tectonic : string) (pl : payload) (d : string) (n : nat) :
  s_gunzip s = Some pl →
  OS.free_name "ttrac" OS.TMP_MAX (w_tmp w) (w_fs w) = Some (d, n) →
  let stem := PosixPath.stem (s_path s) in
  let sp := PosixPath.div d stem in
  FS.lookup (PosixPath.abspath (w_cwd w) sp) (FS.write d Dir (w_fs w)) = None →
  ReportCI.do_work os_run s maindoc tectonic
  = with_ (ReportCI.TestEnv.init s (negb (String.eqb maindoc stem)))
      ReportCI.TestEnv.exit_ (ReportCI.do_work_body os_run s maindoc tectonic)
  ∧ (maindoc = stem →
     ReportCI.TestEnv.init s (negb (String.eqb maindoc stem)) w
     = (Ok d, decompressed w s pl d n)
     ∧ resolves (decompressed w s pl d n) (PosixPath.div d maindoc)
       = Some (File (p_data pl))
     ∧ obeys not_tar_event any_exn (ReportCI.do_work os_run s maindoc tectonic))
  ∧ (maindoc ≠ stem →
     ∃ t, w_trace (snd (ReportCI.do_work os_run s maindoc tectonic w))
          = w_trace w ++ [EvMkdtemp d; EvGunzip (s_path s) sp; EvTarOpen sp] ++ t).
Proof.
  intros Hgz Hfree stem sp Hnone. split; [done|]. split.
  - intros ->. rewrite String.eqb_refl. simpl negb. split_and!.
    + by rewrite (init_decompresses w s false pl d n Hgz Hfree Hnone).
    + unfold resolves, decompressed. simpl. apply lookup_write.
    + apply do_work_flat_no_tar.
  - intros Hne. apply String.eqb_neq in Hne.
    destruct (with_extends_init
                (ReportCI.TestEnv.init s (negb (String.eqb maindoc stem)))
                ReportCI.TestEnv.exit_
                (ReportCI.do_work_body os_run s maindoc tectonic) w) as [t Ht].
    { intros a. by apply exit_obeys. }
    { intros a. by apply do_work_body_obeys. }
    unfold ReportCI.do_work. fold stem. rewrite Ht, Hne. simpl negb.
    rewrite (init_decompresses w s true pl d n Hgz Hfree Hnone). fold stem sp.
    set (rest := bind (bind (match p_members pl with
                             | Some ms => ret ms
                             | None => raise (ReadError sp)
                             end)
                         (fun tar => ReportCI.TestEnv.safe_extract tar d ;;; OS.unlink sp))
                      (fun _ => ret d)).
    assert (obeys any_event any_exn rest) as Hrest.
    { unfold rest, ReportCI.TestEnv.safe_extract, ReportCI.TestEnv.is_within_directory.
      obeys_unfold. obeys_go. }
    destruct (Hrest (add_trace (decompressed w s pl d n) [EvTarOpen sp]))
      as [(t' & Ht' & _) _].
    exists (t' ++ t). unfold rest in Ht'. unfold tar_open. unfold bind at 1 2 3.
    rewrite run_log. unfold bind in Ht' |- *. rewrite Ht'. simpl.
    by rewrite <- !app_assoc.
Qed.

(** ** Instances on the example worlds *)

Lemma safe_extract_rejects_first_witness :
  ReportCI.TestEnv.safe_extract
    [TarMember "main.tex" (File Examples.tex); TarMember "../../etc/evil" (File Samples.png)]
    "/tmp/tmp0ttrac" Examples.w0
  = (Raise (Exception "Attempted Path Traversal in Tar File"), Examples.w0).
Proof.
  apply (safe_extract_rejects_first Examples.w0 _ "/tmp/tmp0ttrac"
           (TarMember "../../etc/evil" (File Samples.png))).
  - apply list_elem_of_further, list_elem_of_here.
  - reflexivity.
Defined.


Lemma do_work_untars_iff_entry_differs_witness :
  ReportCI.TestEnv.init Samples.flat (negb (String.eqb "1234" "1234")) Examples.w0
  = (Ok "/tmp/tmp0ttrac",
     decompressed Examples.w0 Samples.flat (Payload Examples.tex None) "/tmp/tmp0ttrac" 1).
Proof.
  destruct (do_work_untars_iff_entry_differs Samples.tectonic Examples.w0 Samples.flat
              "1234" "/bin/tectonic" (Payload Examples.tex None) "/tmp/tmp0ttrac" 1
              eq_refl eq_refl eq_refl) as (_ & H & _).
  exact (proj1 (H eq_refl)).
Defined.

(** ** The status a worker records *)





(** ** The capture store of [report_ci.py] *)

Lemma run_sha256sum (w : world) (f : string) (d : filedata) :
  resolves w f = Some (File d) →
  sha256sum f w = (Ok (SHA256.hexdigest (f_bytes d)), add_trace w [EvHash f]).
Proof.
  intros E. unfold sha256sum. rewrite (bind_ok _ _ _ _ _ (run_log w _)).
  by rewrite (bind_ok _ _ _ _ _ (run_stat (add_trace w _) f d E)).
Qed.

Lemma run_copy (w : world) (src dst : string) (d : filedata) :
  resolves w src = Some (File d) → resolves w dst = None →
  OS.copy src dst w
  = (Ok tt, World (FS.write (PosixPath.abspath (w_cwd w) dst) (File d) (w_fs w))
                  (w_trace w ++ [EvCopy src dst]) (w_cwd w) (w_tmp w) (w_clock w)
                  (w_exclude w)).
Proof.
  intros Hs Hd. unfold OS.copy, OS.stat, OS.write_file, bind, log, abs, get_fs, set_fs,
    ret, resolves in *. simpl. rewrite Hs. simpl. by rewrite Hd.
Qed.

Lemma capture_step_baseline (excluded : option ReportCI.captured) (f : string)
    (acc : gmap string string * gset string) (w : world) :
  ReportCI.capture_step excluded true f acc w
  = match resolves w f with
    | Some (File d) =>
        (Ok (fst acc, {[Store.digest16 d]} ∪ snd acc), add_trace w [EvHash f])
    | _ => (Ok acc, w)
    end.
Proof.
  unfold ReportCI.capture_step. rewrite (bind_ok _ _ _ _ _ (run_is_file w f)).
  destruct (resolves w f) as [[|d]|] eqn:E; cbn [negb]; try done.
  by rewrite (bind_ok _ _ _ _ _ (run_sha256sum w f d E)).
Qed.

Lemma capture_step_capture (excluded : option ReportCI.captured) (f : string)
    (acc : gmap string string * gset string) (w : world) :
  ReportCI.capture_step excluded false f acc w
  = match resolves w f with
    | Some (File d) =>
        if Store.is_excluded excluded (Store.digest16 d)
        then (Ok acc, add_trace w [EvHash f])
        else
          let acc' := (<[PosixPath.name f := Store.object_name f d]> (fst acc), snd acc) in
          match resolves w (Store.target f d) with
          | Some _ => (Ok acc', add_trace w [EvHash f])
          | None =>
              (Ok acc',
               World (FS.write (PosixPath.abspath (w_cwd w) (Store.target f d)) (File d)
                               (w_fs w))
                     (w_trace w ++ [EvHash f; EvCopy f (Store.target f d)])
                     (w_cwd w) (w_tmp w) (w_clock w) (w_exclude w))
          end
    | _ => (Ok acc, w)
    end.
Proof.
  unfold ReportCI.capture_step. rewrite (bind_ok _ _ _ _ _ (run_is_file w f)).
  destruct (resolves w f) as [[|d]|] eqn:E; cbn [negb]; try done.
  rewrite (bind_ok _ _ _ _ _ (run_sha256sum w f d E)).
  fold (Store.digest16 d). fold (Store.is_excluded excluded (Store.digest16 d)).
  destruct (Store.is_excluded excluded (Store.digest16 d)); [done|].
  fold (Store.ext_of f). fold (Store.object_name f d). fold (Store.target f d).
  rewrite (bind_ok _ _ _ _ _ (run_exists _ _)). rewrite resolves_add_trace.
  destruct (resolves w (Store.target f d)) as [n|] eqn:Et; cbn [negb]; [done|].
  rewrite (bind_ok _ _ _ _ _ (run_copy (add_trace w [EvHash f]) f _ d E Et)).
  unfold ret. simpl. by rewrite <- app_assoc.
Qed.

Lemma store_grows_refl (w : world) : store_grows w w.
Proof. split_and!; [done|done|]. intros p n H1 H2. congruence. Qed.

Lemma store_grows_add_trace (w : world) (t : list event) : store_grows w (add_trace w t).
Proof. split_and!; [done|done|]. intros p n H1 H2. simpl in H2. congruence. Qed.

Lemma store_grows_trans (w1 w2 w3 : world) :
  store_grows w1 w2 → store_grows w2 w3 → store_grows w1 w3.
Proof.
  intros (C1 & K1 & N1) (C2 & K2 & N2). split_and!.
  - congruence.
  - intros p n H. by apply K2, K1.
  - intros p n H1 H3. destruct (FS.lookup p (w_fs w2)) as [m|] eqn:E2.
    + rewrite (K2 _ _ E2) in H3. injection H3 as ->. by apply N1.
    + rewrite <- C1. by apply N2.
Qed.

Lemma capture_step_grows (excluded : option ReportCI.captured) (as_set : bool)
    (f : string) (acc : gmap string string * gset string) (w : world) :
  store_grows w (snd (ReportCI.capture_step excluded as_set f acc w)).
Proof.
  destruct as_set.
  - rewrite capture_step_baseline. destruct (resolves w f) as [[|d]|];
      first [apply store_grows_refl|apply store_grows_add_trace].
  - rewrite capture_step_capture. destruct (resolves w f) as [[|d]|];
      try apply store_grows_refl.
    destruct (Store.is_excluded _ _); [apply store_grows_add_trace|].
    destruct (resolves w (Store.target f d)) as [n|] eqn:Et;
      [apply store_grows_add_trace|].
    unfold resolves in Et. split_and!; simpl; [done|..].
    + intros p n Hp. rewrite lookup_write_ne; [done|]. intros <-. congruence.
    + intros p n Hp Hn.
      destruct (decide (PosixPath.abspath (w_cwd w) (Store.target f d) = p)) as [<-|Hne].
      * rewrite lookup_write in Hn. injection Hn as <-. by exists f, d.
      * rewrite lookup_write_ne in Hn by done. congruence.
Qed.

Lemma capture_loop_grows (excluded : option ReportCI.captured) (as_set : bool)
    (l : list string) (acc : gmap string string * gset string) (w : world) :
  store_grows w (snd (for_acc l (ReportCI.capture_step excluded as_set) acc w)).
Proof.
  revert acc w. induction l as [|f l IH]; intros acc w; simpl; [apply store_grows_refl|].
  unfold bind. pose proof (capture_step_grows excluded as_set f acc w) as Hs.
  destruct (ReportCI.capture_step excluded as_set f acc w) as [[acc'|e] w1]; simpl in *;
    [|done].
  eapply store_grows_trans; [done|]. apply IH.
Qed.

Lemma iterdir_world (d : string) (w : world) : snd (OS.iterdir d w) = w.
Proof.
  unfold OS.iterdir, bind, abs, get_fs, ret, raise. simpl.
  by destruct (FS.lookup _ _) as [[|?]|].
Qed.

Lemma capture_files_grows (d : string) (excluded : option ReportCI.captured)
    (as_set : bool) (w : world) :
  store_grows w (snd (ReportCI.capture_files d excluded as_set w)).
Proof.
  unfold ReportCI.capture_files. unfold bind at 1.
  pose proof (iterdir_world d w) as Hw.
  destruct (OS.iterdir d w) as [[l|e] w0]; simpl in Hw; subst w0; simpl;
    [|apply store_grows_refl].
  unfold bind. pose proof (capture_loop_grows excluded as_set l (∅, ∅) w) as Hl.
  destruct (for_acc l _ _ w) as [[acc|e] w1]; simpl in *; [|done].
  by destruct as_set.
Qed.

(** [capture_files] never changes and never removes what is on disk:
    a path that holds a file or a directory holds the same afterwards,
    in either mode and whether the call returns or raises. *)
Theorem capture_files_never_overwrites (d : string) (excluded : option ReportCI.captured)
    (as_set : bool) (w : world) (p : string) (n : node) :
  FS.lookup p (w_fs w) = Some n →
  FS.lookup p (w_fs (snd (ReportCI.capture_files d excluded as_set w))) = Some n.
Proof. intros H. by apply (capture_files_grows d excluded as_set w). Qed.


Lemma files_of_cons (w : world) (f : string) (l : list string) :
  Store.files_of w (f :: l)
  = match resolves w f with
    | Some (File d) => (f, d) :: Store.files_of w l
    | _ => Store.files_of w l
    end.
Proof. unfold Store.files_of. simpl. by destruct (resolves w f) as [[|d]|]. Qed.

Lemma baseline_loop (excluded : option ReportCI.captured) (l : list string)
    (acc : gmap string string * gset string) (w : world) :
  for_acc l (ReportCI.capture_step excluded true) acc w
  = (Ok (fst acc, digests w l ∪ snd acc), add_trace w (hashes w l)).
Proof.
  revert acc w. induction l as [|f l IH]; intros acc w.
  - simpl. unfold ret, digests, hashes. simpl. rewrite add_trace_nil.
    destruct acc as [m s]. simpl. by rewrite (left_id_L ∅ (∪)).
  - simpl. unfold bind. rewrite capture_step_baseline.
    unfold digests, hashes. rewrite files_of_cons.
    destruct (resolves w f) as [[|d]|] eqn:E; try apply IH.
    rewrite IH. simpl. rewrite add_trace_add_trace.
    change (digests (add_trace w [EvHash f]) l) with (digests w l).
    change (hashes (add_trace w [EvHash f]) l) with (hashes w l).
    fold (digests w l). fold (hashes w l).
    by rewrite (assoc_L (∪)), (comm_L (∪) (digests w l)).
Qed.

(** In baseline mode [capture_files] changes nothing on disk: it only
    hashes the regular files of the directory, and returns the set of
    their digests. *)
Theorem capture_files_baseline (d : string) (excluded : option ReportCI.captured)
    (w : world) (l : list string) :
  OS.iterdir d w = (Ok l, w) →
  ReportCI.capture_files d excluded true w
  = (Ok (ReportCI.CapSet (digests w l)), add_trace w (hashes w l)).
Proof.
  intros Hit. unfold ReportCI.capture_files. rewrite (bind_ok _ _ _ _ _ Hit).
  unfold bind. rewrite baseline_loop. simpl. unfold ret.
  by rewrite (right_id_L ∅ (∪)).
Qed.

Lemma excluded_loop (S : gset string) (l : list string)
    (acc : gmap string string * gset string) (w : world) :
  digests w l ⊆ S →
  for_acc l (ReportCI.capture_step (Some (ReportCI.CapSet S)) false) acc w
  = (Ok acc, add_trace w (hashes w l)).
Proof.
  revert acc w. induction l as [|f l IH]; intros acc w HS.
  - simpl. unfold ret, hashes. simpl. by rewrite add_trace_nil.
  - simpl. unfold bind. rewrite capture_step_capture.
    unfold digests, hashes in *. rewrite files_of_cons in *.
    destruct (resolves w f) as [[|d]|] eqn:E; try by apply IH.
    simpl in HS. unfold Store.is_excluded, ReportCI.contains_digest.
    rewrite bool_decide_eq_true_2
      by (apply HS, elem_of_union_l, elem_of_singleton; done).
    rewrite IH.
    + simpl. by rewrite add_trace_add_trace.
    + change (Store.files_of (add_trace w [EvHash f]) l) with (Store.files_of w l).
      intros x Hx. by apply HS, elem_of_union_r.
Qed.

(** Capture after a baseline of the same directory, with nothing
    changed in between, returns the empty dictionary: every file is
    hashed again and skipped, and nothing is copied. *)
Theorem capture_after_baseline_is_empty (d : string) (w w1 : world)
    (ex : ReportCI.captured) :
  ReportCI.capture_files d None true w = (Ok ex, w1) →
  ∃ t, ReportCI.capture_files d (Some ex) false w1
       = (Ok (ReportCI.CapMap ∅), add_trace w1 t)
       ∧ Forall not_copy_event t.
Proof.
  intros Hb. pose proof (iterdir_world d w) as Hw.
  destruct (OS.iterdir d w) as [[l|e] w0] eqn:Hit; simpl in Hw; subst w0.
  2:{ unfold ReportCI.capture_files in Hb. by rewrite (bind_raise _ _ _ _ _ Hit) in Hb. }
  rewrite (capture_files_baseline d None w l Hit) in Hb. injection Hb as <- <-.
  exists (hashes w l). split.
  - unfold ReportCI.capture_files.
    assert (OS.iterdir d (add_trace w (hashes w l)) = (Ok l, add_trace w (hashes w l)))
      as Hit'.
    { revert Hit. unfold OS.iterdir, bind, abs, get_fs, ret, raise. simpl.
      destruct (FS.lookup _ _) as [[|?]|]; intros [= <-]; done. }
    rewrite (bind_ok _ _ _ _ _ Hit'). unfold bind.
    rewrite excluded_loop; [done|].
    by change (digests (add_trace w (hashes w l)) l) with (digests w l).
  - unfold hashes. apply Forall_forall. intros e He.
    apply list_elem_of_In, in_map_iff in He as (fd & <- & _). done.
Qed.




Lemma capture_files_never_overwrites_witness :
  FS.lookup "/ws/main.tex"
    (w_fs (snd (ReportCI.capture_files "/ws" None false w_ws)))
  = Some (File Examples.tex).
Proof.
  exact (capture_files_never_overwrites "/ws" None false w_ws "/ws/main.tex" _ eq_refl).
Defined.


Lemma capture_files_baseline_witness :
  ReportCI.capture_files "/ws" None true w_ws
  = (Ok (ReportCI.CapSet (digests w_ws ws_listing)), add_trace w_ws (hashes w_ws ws_listing)).
Proof. exact (capture_files_baseline "/ws" None w_ws ws_listing eq_refl). Defined.

Lemma capture_after_baseline_is_empty_witness :
  ∃ t, ReportCI.capture_files "/ws" (Some (ReportCI.CapSet (digests w_ws ws_listing)))
         false (add_trace w_ws (hashes w_ws ws_listing))
       = (Ok (ReportCI.CapMap ∅), add_trace (add_trace w_ws (hashes w_ws ws_listing)) t)
       ∧ Forall not_copy_event t.
Proof.
  apply (capture_after_baseline_is_empty "/ws" w_ws). by vm_compute.
Defined.


Example capture_same_bytes_one_object :
  let r := ReportCI.capture_files "/ws" None false w_ws in
  reads (w_trace (snd r)) = []
  ∧ omap (fun e => match e with EvCopy p q => Some (p, q) | _ => None end)
         (w_trace (snd r))
    = [("/ws/main.tex", Store.target "/ws/main.tex" Examples.tex);
       ("/ws/main.pdf", Store.target "/ws/main.pdf" Examples.pdf)].
Proof. by vm_compute. Qed.
